(** * mongmung_csslint_server: config synthesis, request validation,
      warning extraction, output formatting and the lint orchestrator.

    Shallow embedding of [src/config/stylelint.ts] and
    [src/services/lintService.ts].  JavaScript objects live in an explicit
    store so that copies and aliases can be told apart; thrown values and
    the store are threaded through a small state-and-exception monad. *)

From Stdlib Require Import ZArith.
From stdpp Require Import gmap list fin_maps pretty strings.

Local Open Scope string_scope.
Local Open Scope list_scope.
Local Open Scope stdpp_scope.

(* ===================================================================== *)
(** ** The JavaScript object store *)
(* ===================================================================== *)

(** A reference to an object of the store. *)
Abbreviation loc := nat (only parsing).

(** What a property or an array slot can hold.  [undefined] is not a
    stored value here: a read of a missing property answers [None].
    Numbers are carried as opaque payload (no arithmetic is done on rule
    values), so an integer stands for them.  [VBuiltin name] is the member
    [name] that every plain object inherits from [Object.prototype] (a
    function, or for [__proto__] the prototype itself): it lives outside
    the store of the program's own objects. *)
Inductive value : Type :=
  | VNull
  | VBool (b : bool)
  | VNum (n : Z)
  | VStr (s : string)
  | VRef (l : loc)
  | VBuiltin (name : string).

(** A plain record (string keys) or an array. *)
Inductive object : Type :=
  | ORecord (fields : gmap string value)
  | OArray (elems : list value).

(** The store is the sequence of objects allocated so far; a reference is
    an index into it.  Nothing is ever freed. *)
Abbreviation heap := (list object) (only parsing).

#[global] Instance value_eq_dec : EqDecision value.
Proof. solve_decision. Defined.

(** [new Object] / an object or array literal: the next free index. *)
Definition alloc (o : object) (h : heap) : loc * heap :=
  (length h, h ++ [o]).

(** The own enumerable properties copied by a spread [{ ...src }]: the
    fields of a record, the index keys of an array. *)
Definition own_properties (h : heap) (src : loc) : gmap string value :=
  match h !! src with
  | Some (ORecord fields) => fields
  | Some (OArray elems) =>
      list_to_map (imap (fun i v => (pretty i, v)) elems)
  | None => ∅
  end.

(** [obj[key]] on a record; [None] is [undefined].  The keys read in this
    development are never inherited ones. *)
Definition get_property (h : heap) (obj : loc) (key : string) : option value :=
  match h !! obj with
  | Some (ORecord fields) => fields !! key
  | _ => None
  end.

(** [obj[key] = v] on a record. *)
Definition set_property (obj : loc) (key : string) (v : value) (h : heap) : heap :=
  match h !! obj with
  | Some (ORecord fields) => <[obj := ORecord (<[key := v]> fields)]> h
  | _ => h
  end.

(** [delete obj[key]] on a record. *)
Definition delete_property (obj : loc) (key : string) (h : heap) : heap :=
  match h !! obj with
  | Some (ORecord fields) => <[obj := ORecord (delete key fields)]> h
  | _ => h
  end.

(** [arr.push(v)]: an in-place update of an array object. *)
Definition array_push (arr : loc) (v : value) (h : heap) : heap :=
  match h !! arr with
  | Some (OArray elems) => <[arr := OArray (elems ++ [v])]> h
  | _ => h
  end.

(** The references held directly by an object. *)
Definition refs_of_value (v : value) : list loc :=
  match v with VRef l => [l] | _ => [] end.

Definition refs_of_object (o : object) : list loc :=
  match o with
  | ORecord fields => (map_to_list fields).*2 ≫= refs_of_value
  | OArray elems => elems ≫= refs_of_value
  end.

(** [reaches h a b]: object [b] can be reached from object [a] by following
    property and element references. *)
Inductive reaches (h : heap) : loc -> loc -> Prop :=
  | reaches_here l : l < length h -> reaches h l l
  | reaches_step a o b c :
      h !! a = Some o -> b ∈ refs_of_object o -> reaches h b c ->
      reaches h a c.

Set Warnings "-register-all".

(** A JavaScript value read but never written by the service, such as what
    the engine answers: kept as a tree, objects as their own entries. *)
Inductive JsValue : Type :=
  | JUndefined
  | JNull
  | JBool (b : bool)
  | JNum (n : Z)
  | JStr (s : string)
  | JArray (elems : list JsValue)
  | JObject (entries : list (string * JsValue)).

(* ===================================================================== *)
(** ** [src/types/index.ts] *)
(* ===================================================================== *)

(** [type CssSyntax = 'css' | 'html'] and
    [type OutputStyle = 'compact' | 'nested'] are string-literal unions:
    at run time the values are plain strings, compared with [===], and a
    request can carry any string (the tests send ['invalid']).  They are
    kept as strings, with the membership tests beside them. *)
Abbreviation CssSyntax := string (only parsing).
Abbreviation OutputStyle := string (only parsing).

Definition is_CssSyntax (s : string) : bool :=
  bool_decide (s = "css") || bool_decide (s = "html").

Definition is_OutputStyle (s : string) : bool :=
  bool_decide (s = "compact") || bool_decide (s = "nested").

Inductive Severity : Type := severity_error | severity_warning.

Record StylelintWarning : Type := {
  line : Z;
  column : Z;
  rule : string;
  severity : Severity;
  text : string;
}.

Module LintRequest.
Record config_t : Type := mk_config {
  rules : loc;
  outputStyle : option OutputStyle;
}.
Record t : Type := mk {
  code : string;
  syntax : CssSyntax;
  config : config_t;
}.
End LintRequest.

Module LintOptions.
Record t : Type := mk {
  code : string;
  config : loc;
}.
End LintOptions.

Module LintResult.
Record config_t : Type := mk_config {
  extends : option value;
  plugins : option value;
  customSyntax : option value;
}.
Record info_t : Type := mk_info {
  version : string;
  config : config_t;
}.
Record content_t : Type := mk_content {
  warnings : list JsValue;
  output : string;
  info : info_t;
}.
Record t : Type := mk {
  success : bool;
  message : string;
  content : option content_t;
}.
End LintResult.

(* ===================================================================== *)
(** ** [src/config/stylelint.ts] *)
(* ===================================================================== *)

Definition DEFAULT_EXTENDS : list value :=
  [ VStr "stylelint-config-standard";
    VStr "stylelint-config-recommended-scss";
    VStr "stylelint-config-recommended-vue" ].

Definition DEFAULT_PLUGINS : list value :=
  [ VStr "stylelint-order";
    VStr "@stylistic/stylelint-plugin" ].

(** [Record<CssSyntax, string | undefined>]: the object's own entries,
    [None] standing for [undefined]. *)
Definition SYNTAX_PARSER_MAP : gmap string (option string) :=
  {[ "css" := None; "html" := Some "postcss-html" ]}.

(** The names every plain object inherits from [Object.prototype]. *)
Definition OBJECT_PROTOTYPE_KEYS : list string :=
  [ "constructor"; "hasOwnProperty"; "isPrototypeOf"; "propertyIsEnumerable";
    "toLocaleString"; "toString"; "valueOf"; "__proto__";
    "__defineGetter__"; "__defineSetter__"; "__lookupGetter__";
    "__lookupSetter__" ].

(** [SYNTAX_PARSER_MAP[syntax]], for any string: the own entry when there
    is one, else the inherited member of that name, else [undefined]
    ([None]). *)
Definition SYNTAX_PARSER_MAP_get (syntax : string) : option value :=
  match SYNTAX_PARSER_MAP !! syntax with
  | Some own => VStr <$> own
  | None =>
      if bool_decide (syntax ∈ OBJECT_PROTOTYPE_KEYS)
      then Some (VBuiltin syntax)
      else None
  end.

(** Truthiness of a stored value or [undefined]; references and built-in
    members are objects, hence truthy. *)
Definition truthy_value (v : option value) : bool :=
  match v with
  | None | Some VNull => false
  | Some (VBool b) => b
  | Some (VNum n) => negb (Z.eqb n 0)
  | Some (VStr s) => negb (bool_decide (s = EmptyString))
  | Some (VRef _) | Some (VBuiltin _) => true
  end.

(** Truthiness of a [string | undefined]. *)
Definition truthy_string (s : option string) : bool :=
  match s with
  | None => false
  | Some EmptyString => false
  | Some _ => true
  end.

Definition createStylelintConfig
    (rules : loc) (syntax : CssSyntax) (h : heap) : loc * heap :=
  let '(normalizedRules, h) := alloc (ORecord (own_properties h rules)) h in
  let h :=
    match get_property h normalizedRules "color-hex-case" with
    | Some v =>
        delete_property normalizedRules "color-hex-case"
          (set_property normalizedRules "@stylistic/color-hex-case" v h)
    | None => h
    end in
  let '(extends, h) := alloc (OArray DEFAULT_EXTENDS) h in
  let '(plugins, h) := alloc (OArray DEFAULT_PLUGINS) h in
  let '(config, h) :=
    alloc (ORecord {[ "extends" := VRef extends;
                      "fix" := VBool true;
                      "plugins" := VRef plugins;
                      "rules" := VRef normalizedRules ]}) h in
  let customSyntax := SYNTAX_PARSER_MAP_get syntax in
  let h :=
    match customSyntax with
    | Some parser =>
        if truthy_value customSyntax
        then set_property config "customSyntax" parser h
        else h
    | None => h
    end in
  (config, h).

(** The mapping behind [config.rules]. *)
Definition config_rules (h : heap) (config : loc) : option (gmap string value) :=
  match get_property h config "rules" with
  | Some (VRef l) =>
      match h !! l with
      | Some (ORecord fields) => Some fields
      | _ => None
      end
  | _ => None
  end.

(** What the legacy remap of lines 54-58 leaves in the copied mapping. *)
Definition remapped (f : gmap string value) : gmap string value :=
  match f !! "color-hex-case" with
  | Some v => delete "color-hex-case" (<["@stylistic/color-hex-case" := v]> f)
  | None => f
  end.

(** The fields of the object literal of lines 60-65, with [customSyntax]
    added when line 68 holds; [n] is the reference of the copied rules. *)
Definition config_fields (n : loc) (syntax : CssSyntax) : gmap string value :=
  let literal : gmap string value :=
    {[ "extends" := VRef (n + 1); "fix" := VBool true;
       "plugins" := VRef (n + 2); "rules" := VRef n ]} in
  if bool_decide (syntax = "html")
  then <["customSyntax" := VStr "postcss-html"]> literal
  else if bool_decide (syntax ∈ OBJECT_PROTOTYPE_KEYS)
  then <["customSyntax" := VBuiltin syntax]> literal
  else literal.

(** Two objects share state when some object is reachable from both. *)
Definition share_state (h : heap) (a b : loc) : Prop :=
  exists l, reaches h a l /\ reaches h b l.

(** A caller's store for the examples: one array-valued rule and the rules
    mapping that holds it,
    [{ 'order/properties-order': ['color', 'margin'] }]. *)
Definition sample_heap : heap :=
  [ OArray [VStr "color"; VStr "margin"];
    ORecord {[ "order/properties-order" := VRef 0 ]} ].

(** [{ 'color-hex-case': 'lower', indentation: 2 }] *)
Definition legacy_heap : heap :=
  [ ORecord {[ "color-hex-case" := VStr "lower"; "indentation" := VNum 2 ]} ].

(** Two callers, each with a rules mapping of its own. *)
Definition two_callers_heap : heap :=
  sample_heap ++ [ ORecord {[ "color-hex-case" := VStr "upper" ]} ].

(* ===================================================================== *)
(** ** Thrown values, the log and the monad of the service *)
(* ===================================================================== *)

(** Modelled from the spec: the kinds of validation failure of its error
    taxonomy (the [errors] and [validation] modules are not among the
    sources). *)
Inductive ValidationKind : Type :=
  | EmptyCode
  | UnsupportedSyntax
  | NoRules
  | UnsupportedOutputStyle.

(** Modelled from the spec: the classes an [Error] object can belong to,
    as far as the service tells them apart (the [errors] module is not
    among the sources).  [OtherError] is any class the service does not
    name ([TypeError], the parser's [CssSyntaxError], ...). *)
Inductive ErrorClass : Type :=
  | ValidationError (kind : ValidationKind)
  | LintError
  | ParseError
  | OtherError.

(** JavaScript can throw any value: an [Error] object with its [message],
    or something else, kept as its [String(...)] rendering. *)
Inductive Thrown : Type :=
  | ErrorObject (cls : ErrorClass) (message : string)
  | NonError (rendering : string).

(** Modelled from the spec: [error instanceof LintError] (the [errors]
    module is not among the sources).  Validation errors count as
    [LintError] instances, as the comment at line 183 of the service has
    it. *)
Definition instanceof_LintError (error : Thrown) : bool :=
  match error with
  | ErrorObject (ValidationError _) _ | ErrorObject LintError _ => true
  | _ => false
  end.

(** Modelled from the spec: [error instanceof ParseError]. *)
Definition instanceof_ParseError (error : Thrown) : bool :=
  match error with
  | ErrorObject ParseError _ => true
  | _ => false
  end.

(** [error instanceof Error ? error.message : String(error)] *)
Definition thrown_text (error : Thrown) : string :=
  match error with
  | ErrorObject _ message => message
  | NonError rendering => rendering
  end.

Inductive LogLevel : Type := LogDebug | LogInfo | LogError.

(** What a run can change: the object store and the log. *)
Record State : Type := mkState {
  st_heap : heap;
  st_log : list (LogLevel * string);
}.

Inductive Outcome (A : Type) : Type :=
  | Returned (a : A)
  | Threw (error : Thrown).
Arguments Returned {A} a.
Arguments Threw {A} error.

(** A computation returns or throws, and leaves a state either way. *)
Definition M (A : Type) : Type := State -> Outcome A * State.

#[global] Instance M_ret : MRet M := fun A a st => (Returned a, st).

#[global] Instance M_bind : MBind M := fun A B k m st =>
  match m st with
  | (Returned a, st') => k a st'
  | (Threw error, st') => (Threw error, st')
  end.

Definition throw {A : Type} (error : Thrown) : M A :=
  fun st => (Threw error, st).

Definition try_catch {A : Type} (body : M A) (handler : Thrown -> M A) : M A :=
  fun st =>
    match body st with
    | (Returned a, st') => (Returned a, st')
    | (Threw error, st') => handler error st'
    end.

(** A pure computation that may throw. *)
Definition lift {A : Type} (o : Outcome A) : M A := fun st => (o, st).

Definition with_heap {A : Type} (f : heap -> A * heap) : M A :=
  fun st => let '(a, h) := f (st_heap st) in (Returned a, mkState h (st_log st)).

Definition read_heap {A : Type} (f : heap -> A) : M A :=
  fun st => (Returned (f (st_heap st)), st).

(** [logger.debug], [logger.info], [logger.error]: the entry is appended;
    the metadata object is not kept. *)
Definition logger (level : LogLevel) (msg : string) : M unit :=
  fun st => (Returned tt, mkState (st_heap st) (st_log st ++ [(level, msg)])).

(** The texts of the [constants] module, which is not among the sources. *)
Record Constants : Type := {
  VALIDATION_MESSAGE : ValidationKind -> string;
  PARSE_ERROR : string;
  LINT_ERROR : string;
  UNKNOWN_ERROR : string;
  SUCCESS : string;
  STYLELINT_VERSION : string;
}.

(* ===================================================================== *)
(** ** [src/utils/validation.ts] *)
(* ===================================================================== *)

(** Modelled from the spec: the whitespace that trimming removes, here the
    ASCII blanks (tab, line feed, vertical tab, form feed, carriage return,
    space); code strings are byte strings. *)
Definition is_whitespace (c : Ascii.ascii) : bool :=
  let n := Ascii.nat_of_ascii c in
  (Nat.leb 9 n && Nat.leb n 13) || Nat.eqb n 32.

(** Modelled from the spec: the leading blanks removed. *)
Fixpoint trim_start (s : string) : string :=
  match s with
  | String c rest => if is_whitespace c then trim_start rest else s
  | EmptyString => EmptyString
  end.

(** Modelled from the spec: the trailing blanks removed. *)
Fixpoint trim_end (s : string) : string :=
  match s with
  | String c rest =>
      match trim_end rest with
      | EmptyString => if is_whitespace c then EmptyString else String c EmptyString
      | kept => String c kept
      end
  | EmptyString => EmptyString
  end.

(** Modelled from the spec: [code.trim()]. *)
Definition trim (s : string) : string := trim_end (trim_start s).

(** Every character is a blank. *)
Fixpoint all_whitespace (s : string) : bool :=
  match s with
  | String c rest => is_whitespace c && all_whitespace rest
  | EmptyString => true
  end.

Section validation.
Context (K : Constants).

(** Modelled from the spec: the value thrown for a validation failure of
    the given kind, a [ValidationError] with the user-facing text of that
    kind. *)
Definition validation_failure (kind : ValidationKind) : Thrown :=
  ErrorObject (ValidationError kind) (VALIDATION_MESSAGE K kind).

(** Modelled from the spec: a validator's [throw]. *)
Definition validation_error {A : Type} (kind : ValidationKind) : M A :=
  throw (validation_failure kind).

(** Modelled from the spec: the validator of [code] (the [validation]
    module is not among the sources): [code] must be non-empty after
    trimming whitespace, else EmptyCode. *)
Definition validateCode (code : string) : M unit :=
  if bool_decide (trim code = EmptyString) then validation_error EmptyCode else mret tt.

(** Modelled from the spec: the validator of [syntax]: it must be one of
    css and html, else UnsupportedSyntax. *)
Definition validateSyntax (syntax : string) : M unit :=
  if is_CssSyntax syntax then mret tt else validation_error UnsupportedSyntax.

(** Modelled from the spec: the validator of [rules]: the mapping must
    have at least one entry, else NoRules. *)
Definition validateRules (rules : loc) : M unit :=
  entries ← read_heap (fun h => size (own_properties h rules));
  if Nat.eqb entries 0 then validation_error NoRules else mret tt.

(** Modelled from the spec: the validator of [outputStyle]: when present
    it must be one of compact and nested, else UnsupportedOutputStyle. *)
Definition validateOutputStyle (outputStyle : option string) : M unit :=
  match outputStyle with
  | None => mret tt
  | Some style =>
      if is_OutputStyle style then mret tt
      else validation_error UnsupportedOutputStyle
  end.

(** [validateLintRequest] of the service, lines 36-50. *)
Definition validateLintRequest (request : LintRequest.t) : M unit :=
  let code := LintRequest.code request in
  let syntax := LintRequest.syntax request in
  let config := LintRequest.config request in
  validateCode code ;;
  validateSyntax syntax ;;
  validateRules (LintRequest.rules config) ;;
  validateOutputStyle (LintRequest.outputStyle config).
End validation.

(* ===================================================================== *)
(** ** [src/services/lintService.ts] *)
(* ===================================================================== *)

(** JavaScript truthiness; an array or an object, even empty, is truthy. *)
Definition js_truthy (v : JsValue) : bool :=
  match v with
  | JUndefined | JNull => false
  | JBool b => b
  | JNum n => negb (Z.eqb n 0)
  | JStr s => negb (bool_decide (s = EmptyString))
  | JArray _ | JObject _ => true
  end.

(** [Array.isArray] *)
Definition isArray (v : JsValue) : bool :=
  match v with
  | JArray _ => true
  | _ => false
  end.


(** The [TypeError] of a property read on [undefined] or [null].  The
    wording of its message is the runtime's; that of V8 is shown. *)
Definition type_error (subject : JsValue) (key : string) : Thrown :=
  ErrorObject OtherError
    ("Cannot read properties of "
     +:+ match subject with JNull => "null" | _ => "undefined" end
     +:+ " (reading '" +:+ key +:+ "')").

(** The own entry [key] of an object, [undefined] when there is none. *)
Definition js_entry (key : string) (entries : list (string * JsValue)) : JsValue :=
  match List.find (fun entry => bool_decide (entry.1 = key)) entries with
  | Some entry => entry.2
  | None => JUndefined
  end.

(** [v.key] for the names the service reads: a read on [undefined] or
    [null] throws; an object gives its own entry; an array and a string
    have a [length]; every other read gives [undefined]. *)
Definition js_get (v : JsValue) (key : string) : Outcome JsValue :=
  match v with
  | JUndefined | JNull => Threw (type_error v key)
  | JObject entries => Returned (js_entry key entries)
  | JArray elems =>
      Returned (if bool_decide (key = "length")
                then JNum (Z.of_nat (length elems)) else JUndefined)
  | JStr s =>
      Returned (if bool_decide (key = "length")
                then JNum (Z.of_nat (String.length s)) else JUndefined)
  | JBool _ | JNum _ => Returned JUndefined
  end.

(** [v[0]]: the first element of an array, the first character of a
    string, the entry ['0'] of an object. *)
Definition js_first (v : JsValue) : Outcome JsValue :=
  match v with
  | JUndefined | JNull => Threw (type_error v "0")
  | JArray elems => Returned (default JUndefined (head elems))
  | JStr (String c _) => Returned (JStr (String c EmptyString))
  | JStr EmptyString => Returned JUndefined
  | JObject entries => Returned (js_entry "0" entries)
  | JBool _ | JNum _ => Returned JUndefined
  end.

(** [v === 0] *)
Definition is_zero (v : JsValue) : bool :=
  match v with
  | JNum n => Z.eqb n 0
  | _ => false
  end.

#[global] Instance Outcome_ret : MRet Outcome := fun A a => Returned a.

#[global] Instance Outcome_bind : MBind Outcome := fun A B k o =>
  match o with
  | Returned a => k a
  | Threw error => Threw error
  end.

(** The engine's [LinterResult], as far as the service reads it.  The
    service reads [results] defensively, so it is kept as an arbitrary
    value; [code] is read as declared, a string that may be missing. *)
Module LinterResult.
Record t : Type := mk {
  results : JsValue;
  code : option string;
}.
End LinterResult.

(** What the engine's promise resolves to: a result object, or [None] for
    [undefined] ([null] behaves alike). *)
Abbreviation EngineAnswer := (option LinterResult.t) (only parsing).

(** [lintResult.results] *)
Definition result_results (lintResult : EngineAnswer) : Outcome JsValue :=
  match lintResult with
  | Some result => Returned (LinterResult.results result)
  | None => Threw (type_error JUndefined "results")
  end.

(** [lintResult.code] *)
Definition result_code (lintResult : EngineAnswer) : Outcome (option string) :=
  match lintResult with
  | Some result => Returned (LinterResult.code result)
  | None => Threw (type_error JUndefined "code")
  end.

Definition extractWarnings (lintResult : EngineAnswer) : Outcome (list JsValue) :=
  results ← result_results lintResult;
  if negb (js_truthy results) then mret []
  else
    len ← js_get results "length";
    if is_zero len then mret []
    else
      firstResult ← js_first results;
      warnings ← js_get firstResult "warnings";
      if negb (js_truthy warnings) || negb (isArray warnings) then mret []
      else match warnings with
           | JArray ws => mret ws
           | _ => mret []
           end.

(** A warning as the engine reports it. *)
Definition warning_value (w : StylelintWarning) : JsValue :=
  JObject [ ("line", JNum (line w)); ("column", JNum (column w));
            ("rule", JStr (rule w));
            ("severity", JStr match severity w with
                              | severity_error => "error"
                              | severity_warning => "warning"
                              end);
            ("text", JStr (text w)) ].

Section service.
Context (K : Constants).
(** The collaborators the service imports: the lint engine, the CSS
    parser with the type of its syntax trees, and the two formatters. *)
Context (styleLint_lint : LintOptions.t -> M EngineAnswer).
Context {Root : Type}.
Context (postcss_parse : string -> Outcome Root).
Context (nestedFormatter compactFormatter : Root -> Outcome string).

Definition formatOutput
    (lintedCode : string) (outputStyle : option OutputStyle) (syntax : CssSyntax)
    : M string :=
  if bool_decide (syntax = "html") || negb (truthy_string outputStyle)
  then mret lintedCode
  else
    try_catch
      (root ← lift (postcss_parse lintedCode);
       if bool_decide (outputStyle = Some "nested")
       then lift (nestedFormatter root)
       else lift (compactFormatter root))
      (fun error =>
         let errorMessage := thrown_text error in
         logger LogError "CSS parsing failed" ;;
         throw (ErrorObject ParseError (PARSE_ERROR K +:+ ": " +:+ errorMessage))).

Definition lintCode (request : LintRequest.t) : M LintResult.t :=
  validateLintRequest K request ;;
  let code := LintRequest.code request in
  let syntax := LintRequest.syntax request in
  let config := LintRequest.config request in
  let rules := LintRequest.rules config in
  let outputStyle := LintRequest.outputStyle config in
  stylelintConfig ← with_heap (createStylelintConfig rules syntax);
  let options := LintOptions.mk code stylelintConfig in
  try_catch
    (logger LogDebug "Running Stylelint" ;;
     lintResult ← styleLint_lint options;
     warnings ← lift (extractWarnings lintResult);
     fixedCode ← lift (result_code lintResult);
     formattedOutput ←
       formatOutput (default code fixedCode) outputStyle syntax;
     logger LogInfo "Lint completed successfully" ;;
     extends ← read_heap (fun h => get_property h stylelintConfig "extends");
     plugins ← read_heap (fun h => get_property h stylelintConfig "plugins");
     customSyntax ←
       read_heap (fun h => get_property h stylelintConfig "customSyntax");
     mret
       (LintResult.mk true (SUCCESS K)
          (Some
             (LintResult.mk_content warnings formattedOutput
                (LintResult.mk_info (STYLELINT_VERSION K)
                   (LintResult.mk_config extends plugins customSyntax))))))
    (fun error =>
       if instanceof_LintError error || instanceof_ParseError error
       then throw error
       else
         let errorMessage :=
           match error with
           | ErrorObject _ message => LINT_ERROR K +:+ ": " +:+ message
           | NonError _ => UNKNOWN_ERROR K
           end in
         logger LogError "Stylelint execution failed" ;;
         throw (ErrorObject LintError errorMessage)).

(** The body of the [try] block of [formatOutput], lines 91-97: parse,
    then print in the requested style. *)
Definition reserialize (outputStyle : option OutputStyle) (lintedCode : string)
    : Outcome string :=
  match postcss_parse lintedCode with
  | Returned root =>
      if bool_decide (outputStyle = Some "nested")
      then nestedFormatter root
      else compactFormatter root
  | Threw error => Threw error
  end.

(** The state after the error line of [formatOutput]. *)
Definition parse_failed (st : State) : State :=
  mkState (st_heap st) (st_log st ++ [(LogError, "CSS parsing failed")]).

(** The state after the error line of [lintCode]. *)
Definition lint_failed (st : State) : State :=
  mkState (st_heap st) (st_log st ++ [(LogError, "Stylelint execution failed")]).

(** The state after the info line of [lintCode]. *)
Definition lint_completed (st : State) : State :=
  mkState (st_heap st) (st_log st ++ [(LogInfo, "Lint completed successfully")]).

(** The [catch] block of [lintCode], lines 182-200, run on [error] in
    state [st]. *)
Definition lintCode_catch {A : Type} (error : Thrown) (st : State)
    : Outcome A * State :=
  if instanceof_LintError error || instanceof_ParseError error
  then (Threw error, st)
  else (Threw (ErrorObject LintError
                 match error with
                 | ErrorObject _ message => LINT_ERROR K +:+ ": " +:+ message
                 | NonError _ => UNKNOWN_ERROR K
                 end),
        lint_failed st).

(** The state in which the engine is called for [request] from [st]: the
    config has been built and the debug line logged. *)
Definition engine_call (request : LintRequest.t) (st : State)
    : LintOptions.t * State :=
  let config := LintRequest.config request in
  let '(stylelintConfig, h) :=
    createStylelintConfig (LintRequest.rules config)
                          (LintRequest.syntax request) (st_heap st) in
  (LintOptions.mk (LintRequest.code request) stylelintConfig,
   mkState h (st_log st ++ [(LogDebug, "Running Stylelint")])).
End service.

(* ===================================================================== *)
(** ** Stand-ins for the collaborators, used by the examples *)
(* ===================================================================== *)

Definition sample_constants : Constants := {|
  VALIDATION_MESSAGE := fun kind =>
    match kind with
    | EmptyCode => "empty code"
    | UnsupportedSyntax => "unsupported syntax"
    | NoRules => "no rules"
    | UnsupportedOutputStyle => "unsupported output style"
    end;
  PARSE_ERROR := "parse error";
  LINT_ERROR := "lint error";
  UNKNOWN_ERROR := "unknown error";
  SUCCESS := "ok";
  STYLELINT_VERSION := "16";
|}.

(** An engine that changes nothing and reports no warning. *)
Definition quiet_engine (options : LintOptions.t) : M EngineAnswer :=
  mret (Some (LinterResult.mk (JArray [ JObject [ ("warnings", JArray []) ] ]) None)).

(** An engine that throws [error] whatever it is given. *)
Definition throwing_engine (error : Thrown) (options : LintOptions.t)
    : M EngineAnswer :=
  throw error.

(** A parser that refuses the text [}] and hands any other text on as its
    own tree; formatters that print the tree as it is. *)
Definition toy_parse (text : string) : Outcome string :=
  if bool_decide (text = "}")
  then Threw (ErrorObject OtherError "Unexpected }")
  else Returned text.

Definition toy_formatter (root : string) : Outcome string := Returned root.

(** [{ code: 'a{}', syntax: 'css', config: { rules, outputStyle: 'compact' } }]
    over [legacy_heap], whose object 0 is the rules mapping. *)
Definition sample_request : LintRequest.t :=
  LintRequest.mk "a{}" "css" (LintRequest.mk_config 0 (Some "compact")).

Definition sample_state : State := mkState legacy_heap [].

(** [{ code: '<style>a{}</style>', syntax: 'html',
       config: { rules, outputStyle: 'nested' } }] over [legacy_heap]. *)
Definition html_request : LintRequest.t :=
  LintRequest.mk "<style>a{}</style>" "html"
    (LintRequest.mk_config 0 (Some "nested")).

(* ===================================================================== *)
(** ** Well-formed stores *)
(* ===================================================================== *)



(** An engine that allocates a scratch array, logs a line and reports one
    warning with the code it was given. *)
Definition busy_engine (options : LintOptions.t) : M EngineAnswer :=
  with_heap (alloc (OArray [])) ;;
  logger LogDebug "engine ran" ;;
  mret (Some
          (LinterResult.mk
             (JArray [ JObject [ ("warnings",
                 JArray [ warning_value
                            {| line := 1; column := 8;
                               rule := "color-no-invalid-hex";
                               severity := severity_error;
                               text := "Unexpected invalid hex color" |} ]) ] ])
             (Some (LintOptions.code options)))).


(** An engine that looks at what it is given: when the config has [fix]
    on and holds a rule under the new name, it throws a [LintError] saying
    so; otherwise it answers [undefined]. *)
Definition inspecting_engine (options : LintOptions.t) : M EngineAnswer :=
  fun st =>
    let h := st_heap st in
    let config := LintOptions.config options in
    match get_property h config "fix", config_rules h config with
    | Some (VBool true), Some rules =>
        match rules !! "@stylistic/color-hex-case" with
        | Some _ => (Threw (ErrorObject LintError "fix is on, rule renamed"), st)
        | None => (Returned None, st)
        end
    | _, _ => (Returned None, st)
    end.

(** Formatters that mark their output, to tell them apart. *)
Definition toy_nested (root : string) : Outcome string :=
  Returned ("nested:" +:+ root).

Definition toy_compact (root : string) : Outcome string :=
  Returned ("compact:" +:+ root).

(* ===================================================================== *)
(** ** Store lemmas *)
(* ===================================================================== *)

Section store.
Implicit Types (h : heap) (o : object) (l : loc) (f : gmap string value).

Lemma lookup_snoc_old h o l : l < length h -> (h ++ [o]) !! l = h !! l.
Proof. intros. by rewrite lookup_app_l. Qed.

Lemma lookup_snoc_new h o : (h ++ [o]) !! length h = Some o.
Proof. by rewrite lookup_app_r, Nat.sub_diag. Qed.

Lemma insert_snoc_new h o o' : <[length h := o']> (h ++ [o]) = h ++ [o'].
Proof.
  rewrite insert_app_r_alt by lia. by rewrite Nat.sub_diag.
Qed.

Lemma get_property_snoc_new h f k :
  get_property (h ++ [ORecord f]) (length h) k = f !! k.
Proof. unfold get_property. by rewrite lookup_snoc_new. Qed.

Lemma set_property_snoc_new h f k v :
  set_property (length h) k v (h ++ [ORecord f]) = h ++ [ORecord (<[k := v]> f)].
Proof. unfold set_property. by rewrite lookup_snoc_new, insert_snoc_new. Qed.

Lemma delete_property_snoc_new h f k :
  delete_property (length h) k (h ++ [ORecord f]) = h ++ [ORecord (delete k f)].
Proof. unfold delete_property. by rewrite lookup_snoc_new, insert_snoc_new. Qed.
End store.

(* ===================================================================== *)
(** ** Config synthesis *)
(* ===================================================================== *)

Lemma SYNTAX_PARSER_MAP_lookup (syntax : string) :
  mjoin (SYNTAX_PARSER_MAP !! syntax)
  = if bool_decide (syntax = "html") then Some "postcss-html" else None.
Proof.
  unfold SYNTAX_PARSER_MAP. case_bool_decide as Hhtml.
  - subst syntax. reflexivity.
  - destruct (decide (syntax = "css")) as [->|Hcss]; [reflexivity|].
    rewrite lookup_insert_ne by done. by rewrite lookup_singleton_ne.
Qed.

(** What [SYNTAX_PARSER_MAP[syntax]] gives, string by string. *)
Lemma SYNTAX_PARSER_MAP_get_cases (syntax : string) :
  SYNTAX_PARSER_MAP_get syntax
  = if bool_decide (syntax = "html") then Some (VStr "postcss-html")
    else if bool_decide (syntax ∈ OBJECT_PROTOTYPE_KEYS)
    then Some (VBuiltin syntax) else None.
Proof.
  destruct (decide (syntax = "html")) as [->|Hhtml]; [reflexivity|].
  rewrite (bool_decide_eq_false_2 _ Hhtml).
  destruct (decide (syntax = "css")) as [->|Hcss]; [reflexivity|].
  unfold SYNTAX_PARSER_MAP_get, SYNTAX_PARSER_MAP.
  rewrite lookup_insert_ne by done. by rewrite lookup_singleton_ne.
Qed.

Lemma SYNTAX_PARSER_MAP_get_CssSyntax (syntax : string) :
  is_CssSyntax syntax = true ->
  SYNTAX_PARSER_MAP_get syntax = VStr <$> mjoin (SYNTAX_PARSER_MAP !! syntax).
Proof.
  unfold is_CssSyntax. intros [H|H]%orb_true_iff;
    apply bool_decide_eq_true in H; subst syntax; reflexivity.
Qed.

(** The whole effect of one call: four objects are appended to the store
    and nothing else is touched. *)
Lemma createStylelintConfig_shape (h : heap) (rules : loc) (syntax : string) :
  createStylelintConfig rules syntax h =
    (length h + 3,
     h ++ [ ORecord (remapped (own_properties h rules));
            OArray DEFAULT_EXTENDS;
            OArray DEFAULT_PLUGINS;
            ORecord (config_fields (length h) syntax) ]).
Proof.
  unfold createStylelintConfig, alloc, remapped.
  rewrite get_property_snoc_new.
  set (f := own_properties h rules).
  assert (Hlen : forall (a : heap) (o : object), length (a ++ [o]) = length a + 1)
    by (intros; rewrite length_app; reflexivity).
  rewrite SYNTAX_PARSER_MAP_get_cases. unfold config_fields.
  destruct (f !! "color-hex-case") as [v|].
  - rewrite set_property_snoc_new, delete_property_snoc_new.
    repeat case_bool_decide; cbn [truthy_value]; rewrite ?set_property_snoc_new;
      rewrite !Hlen, <- !Nat.add_assoc, <- !app_assoc; reflexivity.
  - repeat case_bool_decide; cbn [truthy_value]; rewrite ?set_property_snoc_new;
      rewrite !Hlen, <- !Nat.add_assoc, <- !app_assoc; reflexivity.
Qed.


Lemma lookup_appended (h ext : heap) (i : nat) :
  (h ++ ext) !! (length h + i) = ext !! i.
Proof. rewrite lookup_app_r by lia. f_equal. lia. Qed.

Lemma config_fields_rules n syntax : config_fields n syntax !! "rules" = Some (VRef n).
Proof. unfold config_fields. by repeat case_bool_decide. Qed.

Lemma config_fields_fix n syntax : config_fields n syntax !! "fix" = Some (VBool true).
Proof. unfold config_fields. by repeat case_bool_decide. Qed.

Lemma config_fields_customSyntax n syntax :
  config_fields n syntax !! "customSyntax" = SYNTAX_PARSER_MAP_get syntax.
Proof.
  rewrite SYNTAX_PARSER_MAP_get_cases. unfold config_fields.
  by repeat case_bool_decide.
Qed.

(** Reading a property of the config just returned. *)
Lemma createStylelintConfig_property h rules syntax key :
  get_property (createStylelintConfig rules syntax h).2
               (createStylelintConfig rules syntax h).1 key
  = config_fields (length h) syntax !! key.
Proof.
  rewrite createStylelintConfig_shape. cbn [fst snd].
  unfold get_property. rewrite lookup_appended. reflexivity.
Qed.

(** [config.rules] of the config just returned. *)
Lemma createStylelintConfig_rules h rules syntax :
  config_rules (createStylelintConfig rules syntax h).2
               (createStylelintConfig rules syntax h).1
  = Some (remapped (own_properties h rules)).
Proof.
  unfold config_rules. rewrite createStylelintConfig_property, config_fields_rules.
  rewrite createStylelintConfig_shape. cbn [fst snd].
  replace (length h) with (length h + 0) at 1 by lia.
  rewrite lookup_appended. reflexivity.
Qed.

Lemma own_properties_record h l f :
  h !! l = Some (ORecord f) -> own_properties h l = f.
Proof. unfold own_properties. by intros ->. Qed.

(** Every value of the remapped mapping is a value of the original one. *)
Lemma remapped_values (f : gmap string value) k v :
  remapped f !! k = Some v -> exists k', f !! k' = Some v.
Proof.
  unfold remapped. destruct (f !! "color-hex-case") as [w|] eqn:Hw; [|eauto].
  rewrite lookup_delete. case_decide; [discriminate|].
  rewrite lookup_insert. case_decide; [|eauto].
  intros [= <-]. eauto.
Qed.

(** C1. For every rules mapping [f] and syntax: when the copied mapping has
    the key [color-hex-case], the rules of the returned config hold that
    key's value under [@stylistic/color-hex-case] and no longer hold
    [color-hex-case], and every key other than these two maps to what it
    mapped to in [f]; when [color-hex-case] is absent the rules are [f]
    itself, no key renamed. *)
Theorem createStylelintConfig_remaps_color_hex_case
    (h : heap) (rules : loc) (f : gmap string value) (syntax : string) :
  h !! rules = Some (ORecord f) ->
  exists g : gmap string value,
    config_rules (createStylelintConfig rules syntax h).2
                 (createStylelintConfig rules syntax h).1 = Some g /\
    match f !! "color-hex-case" with
    | Some v =>
        g !! "@stylistic/color-hex-case" = Some v /\
        g !! "color-hex-case" = None /\
        (forall k, k <> "color-hex-case" -> k <> "@stylistic/color-hex-case" ->
                   g !! k = f !! k)
    | None => g = f
    end.
Proof.
  intros Hf. exists (remapped f). split.
  - by rewrite createStylelintConfig_rules, (own_properties_record _ _ _ Hf).
  - unfold remapped. destruct (f !! "color-hex-case") as [v|]; [|done].
    split; [|split].
    + rewrite lookup_delete_ne by done. apply lookup_insert_eq.
    + apply lookup_delete_eq.
    + intros k Hk1 Hk2. rewrite lookup_delete_ne by done.
      by rewrite lookup_insert_ne.
Qed.

Lemma createStylelintConfig_remaps_color_hex_case_witness :
  legacy_heap !! 0 =
    Some (ORecord {[ "color-hex-case" := VStr "lower"; "indentation" := VNum 2 ]}) /\
  exists g : gmap string value,
    config_rules (createStylelintConfig 0 "css" legacy_heap).2
                 (createStylelintConfig 0 "css" legacy_heap).1 = Some g /\
    g !! "@stylistic/color-hex-case" = Some (VStr "lower") /\
    g !! "color-hex-case" = None /\
    (forall k, k <> "color-hex-case" -> k <> "@stylistic/color-hex-case" ->
       g !! k = ({[ "color-hex-case" := VStr "lower"; "indentation" := VNum 2 ]}
                   : gmap string value) !! k).
Proof.
  split; [reflexivity|].
  exact (createStylelintConfig_remaps_color_hex_case legacy_heap 0 _ "css" eq_refl).
Defined.

(** The remap writes over an entry the caller already had under the new
    name: [{ 'color-hex-case': 'lower', '@stylistic/color-hex-case': 'upper' }]
    comes out as [{ '@stylistic/color-hex-case': 'lower' }]. *)
Example createStylelintConfig_remap_overwrites :
  let h : heap :=
    [ ORecord {[ "color-hex-case" := VStr "lower";
                 "@stylistic/color-hex-case" := VStr "upper" ]} ] in
  config_rules (createStylelintConfig 0 "css" h).2 (createStylelintConfig 0 "css" h).1
  = Some {[ "@stylistic/color-hex-case" := VStr "lower" ]}.
Proof. cbv zeta. rewrite createStylelintConfig_rules. reflexivity. Qed.

(** C7. For every rules mapping and each of the two syntax values, the
    returned config has [customSyntax] exactly when the parser the syntax
    maps to is a non-empty string, and then holds that parser: the field is
    unset for css and is ['postcss-html'] for html. *)
Theorem createStylelintConfig_customSyntax
    (h : heap) (rules : loc) (syntax : string) :
  is_CssSyntax syntax = true ->
  let field :=
    get_property (createStylelintConfig rules syntax h).2
                 (createStylelintConfig rules syntax h).1 "customSyntax" in
  let parser := mjoin (SYNTAX_PARSER_MAP !! syntax) in
  field = (if truthy_string parser then VStr <$> parser else None) /\
  (syntax = "css" -> field = None) /\
  (syntax = "html" -> field = Some (VStr "postcss-html")).
Proof.
  intros Hsyntax. cbv zeta.
  rewrite createStylelintConfig_property, config_fields_customSyntax.
  rewrite (SYNTAX_PARSER_MAP_get_CssSyntax _ Hsyntax).
  rewrite SYNTAX_PARSER_MAP_lookup.
  repeat split.
  - by case_bool_decide.
  - by intros ->.
  - by intros ->.
Qed.

Lemma createStylelintConfig_customSyntax_witness :
  is_CssSyntax "html" = true /\
  get_property (createStylelintConfig 0 "html" legacy_heap).2
               (createStylelintConfig 0 "html" legacy_heap).1 "customSyntax"
    = Some (VStr "postcss-html").
Proof.
  split; [reflexivity|].
  exact (proj2 (proj2
    (createStylelintConfig_customSyntax legacy_heap 0 "html" eq_refl)) eq_refl).
Defined.

(** C9. Every config returned by [createStylelintConfig], for every rules
    mapping and every syntax value, has the field [fix] set to [true]; no
    argument of the function can turn it off. *)
Theorem createStylelintConfig_fix (h : heap) (rules : loc) (syntax : string) :
  get_property (createStylelintConfig rules syntax h).2
               (createStylelintConfig rules syntax h).1 "fix" = Some (VBool true).
Proof. by rewrite createStylelintConfig_property, config_fields_fix. Qed.

(** C2, as stated, fails: the array behind an array-valued rule is the very
    same object in the caller's mapping and in [config.rules], so the
    returned config and its input share mutable state, and a push made
    through the config is seen by the caller. *)
Lemma createStylelintConfig_aliases_nested_values :
  let h' := (createStylelintConfig 1 "css" sample_heap).2 in
  let config := (createStylelintConfig 1 "css" sample_heap).1 in
  get_property h' 1 "order/properties-order" = Some (VRef 0) /\
  (exists g, config_rules h' config = Some g /\
             g !! "order/properties-order" = Some (VRef 0)) /\
  share_state h' 1 config /\
  sample_heap !! 0 = Some (OArray [VStr "color"; VStr "margin"]) /\
  array_push 0 (VStr "top") h' !! 0
    = Some (OArray [VStr "color"; VStr "margin"; VStr "top"]).
Proof.
  cbv zeta. repeat split.
  - rewrite createStylelintConfig_rules. eexists; split; [reflexivity|].
    reflexivity.
  - exists 0. split.
    + eapply (reaches_step _ 1 _ 0); [reflexivity| |].
      * apply list_elem_of_In. vm_compute. tauto.
      * apply reaches_here. vm_compute. lia.
    + eapply (reaches_step _ 5 _ 2); [reflexivity| |].
      * apply list_elem_of_In. vm_compute. tauto.
      * eapply (reaches_step _ 2 _ 0); [reflexivity| |].
        -- apply list_elem_of_In. vm_compute. tauto.
        -- apply reaches_here. vm_compute. lia.
Qed.

Lemma refs_of_record (m : gmap string value) (r : loc) :
  r ∈ refs_of_object (ORecord m) <-> exists k, m !! k = Some (VRef r).
Proof.
  unfold refs_of_object. rewrite list_elem_of_bind. split.
  - intros (v & Hr & Hv). apply list_elem_of_fmap in Hv as ([k v'] & -> & Hkv).
    apply elem_of_map_to_list in Hkv. exists k.
    destruct v'; cbn in Hr; try by apply elem_of_nil in Hr.
    apply list_elem_of_singleton in Hr. by subst.
  - intros (k & Hk). exists (VRef r). split; [cbn; apply list_elem_of_here|].
    apply list_elem_of_fmap. exists (k, VRef r). split; [done|].
    by apply elem_of_map_to_list.
Qed.

(** An entry of the caller's mapping that is not under the new name is an
    entry of the remapped copy, under the same name or, for the legacy
    name, under the new one. *)
Lemma remapped_keeps (f : gmap string value) k v :
  f !! k = Some v -> k <> "@stylistic/color-hex-case" ->
  exists k', remapped f !! k' = Some v.
Proof.
  intros Hk Hnew. unfold remapped.
  destruct (f !! "color-hex-case") as [w|] eqn:Hold; [|eauto].
  destruct (decide (k = "color-hex-case")) as [->|Hne].
  - exists "@stylistic/color-hex-case". rewrite lookup_delete_ne by done.
    rewrite lookup_insert_eq. congruence.
  - exists k. rewrite lookup_delete_ne by done. by rewrite lookup_insert_ne.
Qed.

(** C2, amended.  Two calls in a row, on rules mappings [f1] and [f2] that
    exist before the first call.  Each call only appends to the store, so
    every object the callers own, nested arrays and records included, is
    as it was.  The rules mapping of each returned config is a new object:
    it is neither caller's mapping and the two are distinct.  It is a copy
    of the caller's mapping, legacy name remapped: every entry under
    another name is there with the value it had.  The copy is one level
    deep: a reference to a nested array or record is copied as it is, so
    the nested object is shared by the caller's mapping and the config. *)
Theorem createStylelintConfig_copies_top_level
    (h h1 h2 : heap) (r1 r2 c1 c2 : loc) (s1 s2 : string)
    (f1 f2 : gmap string value) :
  h !! r1 = Some (ORecord f1) ->
  h !! r2 = Some (ORecord f2) ->
  createStylelintConfig r1 s1 h = (c1, h1) ->
  createStylelintConfig r2 s2 h1 = (c2, h2) ->
  exists (n1 n2 : loc) (g1 g2 : gmap string value),
    (exists new1 new2, h1 = h ++ new1 /\ h2 = h1 ++ new2) /\
    get_property h1 c1 "rules" = Some (VRef n1) /\
    get_property h2 c2 "rules" = Some (VRef n2) /\
    h1 !! n1 = Some (ORecord g1) /\
    h2 !! n1 = Some (ORecord g1) /\
    h2 !! n2 = Some (ORecord g2) /\
    length h <= n1 /\ length h1 <= n2 /\
    n1 <> n2 /\ n1 <> r1 /\ n1 <> r2 /\ n2 <> r1 /\ n2 <> r2 /\
    (forall k v, g1 !! k = Some v -> exists k', f1 !! k' = Some v) /\
    (forall k v, g2 !! k = Some v -> exists k', f2 !! k' = Some v) /\
    g1 = remapped f1 /\ g2 = remapped f2 /\
    (forall k, k <> "color-hex-case" -> k <> "@stylistic/color-hex-case" ->
               g1 !! k = f1 !! k /\ g2 !! k = f2 !! k) /\
    (forall k l, f1 !! k = Some (VRef l) -> k <> "@stylistic/color-hex-case" ->
                 l < length h ->
                 (exists k', g1 !! k' = Some (VRef l)) /\ share_state h1 r1 c1) /\
    (forall k l, f2 !! k = Some (VRef l) -> k <> "@stylistic/color-hex-case" ->
                 l < length h ->
                 (exists k', g2 !! k' = Some (VRef l)) /\ share_state h2 r2 c2).
Proof.
  intros Hr1 Hr2 E1 E2.
  pose proof (lookup_lt_Some _ _ _ Hr1) as Hlt1.
  pose proof (lookup_lt_Some _ _ _ Hr2) as Hlt2.
  rewrite createStylelintConfig_shape in E1. injection E1 as <- <-.
  rewrite createStylelintConfig_shape in E2. injection E2 as <- <-.
  rewrite (own_properties_record _ _ _ Hr1).
  rewrite (own_properties_record (h ++ _) r2 f2) by (by rewrite lookup_app_l).
  set (new1 := [ORecord (remapped f1); _; _; _]).
  set (new2 := [ORecord (remapped f2); _; _; _]).
  assert (Hlen1 : length (h ++ new1) = length h + 4)
    by (rewrite length_app; reflexivity).
  assert (Hlen2 : length ((h ++ new1) ++ new2) = length h + 8)
    by (rewrite !length_app; cbn; lia).
  assert (Hn1 : (h ++ new1) !! length h = Some (ORecord (remapped f1))).
  { replace (length h) with (length h + 0) at 1 by lia. by rewrite lookup_appended. }
  assert (Hn2 : ((h ++ new1) ++ new2) !! length (h ++ new1)
                = Some (ORecord (remapped f2))).
  { replace (length (h ++ new1)) with (length (h ++ new1) + 0) at 1 by lia.
    by rewrite lookup_appended. }
  assert (Hc1 : (h ++ new1) !! (length h + 3)
                = Some (ORecord (config_fields (length h) s1)))
    by (by rewrite lookup_appended).
  assert (Hc2 : ((h ++ new1) ++ new2) !! (length (h ++ new1) + 3)
                = Some (ORecord (config_fields (length (h ++ new1)) s2)))
    by (by rewrite lookup_appended).
  exists (length h), (length (h ++ new1)), (remapped f1), (remapped f2).
  repeat match goal with |- _ /\ _ => split end.
  - by exists new1, new2.
  - unfold get_property. rewrite Hc1. apply config_fields_rules.
  - unfold get_property. rewrite Hc2. apply config_fields_rules.
  - exact Hn1.
  - by rewrite lookup_app_l by lia.
  - exact Hn2.
  - lia.
  - lia.
  - lia.
  - lia.
  - lia.
  - lia.
  - lia.
  - apply remapped_values.
  - apply remapped_values.
  - reflexivity.
  - reflexivity.
  - intros k Hold Hnew. unfold remapped.
    destruct (f1 !! "color-hex-case"); destruct (f2 !! "color-hex-case");
      rewrite ?lookup_delete_ne, ?lookup_insert_ne by done; done.
  - intros k l Hk Hnew Hl.
    destruct (remapped_keeps _ _ _ Hk Hnew) as (k' & Hk'). split; [eauto|].
    exists l. split.
    + eapply (reaches_step _ r1 _ l).
      * by rewrite lookup_app_l.
      * apply refs_of_record. eauto.
      * apply reaches_here. lia.
    + eapply (reaches_step _ (length h + 3) _ (length h)); [exact Hc1 | |].
      * apply refs_of_record. exists "rules". apply config_fields_rules.
      * eapply (reaches_step _ (length h) _ l); [exact Hn1 | |].
        -- apply refs_of_record. eauto.
        -- apply reaches_here. lia.
  - intros k l Hk Hnew Hl.
    destruct (remapped_keeps _ _ _ Hk Hnew) as (k' & Hk'). split; [eauto|].
    exists l. split.
    + eapply (reaches_step _ r2 _ l).
      * by rewrite !lookup_app_l by lia.
      * apply refs_of_record. eauto.
      * apply reaches_here. lia.
    + eapply (reaches_step _ (length (h ++ new1) + 3) _ (length (h ++ new1)));
        [exact Hc2 | |].
      * apply refs_of_record. exists "rules". apply config_fields_rules.
      * eapply (reaches_step _ (length (h ++ new1)) _ l); [exact Hn2 | |].
        -- apply refs_of_record. eauto.
        -- apply reaches_here. lia.
Qed.

Lemma createStylelintConfig_copies_top_level_witness :
  two_callers_heap !! 1 = Some (ORecord {[ "order/properties-order" := VRef 0 ]}) /\
  two_callers_heap !! 2 = Some (ORecord {[ "color-hex-case" := VStr "upper" ]}) /\
  exists (n1 n2 : loc) (g1 g2 : gmap string value),
    (createStylelintConfig 1 "css" two_callers_heap).2 !! n1 = Some (ORecord g1) /\
    (createStylelintConfig 2 "html"
       (createStylelintConfig 1 "css" two_callers_heap).2).2 !! n2
      = Some (ORecord g2) /\
    n1 <> n2 /\ n1 <> 1 /\ n1 <> 2 /\ n2 <> 1 /\ n2 <> 2 /\
    g1 = {[ "order/properties-order" := VRef 0 ]} /\
    g2 = {[ "@stylistic/color-hex-case" := VStr "upper" ]} /\
    share_state (createStylelintConfig 1 "css" two_callers_heap).2 1
                (createStylelintConfig 1 "css" two_callers_heap).1.
Proof.
  split; [reflexivity|]. split; [reflexivity|].
  destruct (createStylelintConfig_copies_top_level
              two_callers_heap _ _ 1 2 _ _ "css" "html" _ _
              eq_refl eq_refl eq_refl eq_refl)
    as (n1 & n2 & g1 & g2 & _ & _ & _ & H1 & _ & H2 & _ & _ & D1 & D2 & D3 & D4 & D5
        & _ & _ & G1 & G2 & _ & S1 & _).
  exists n1, n2, g1, g2.
  repeat match goal with |- _ /\ _ => split end; try assumption.
  apply (S1 "order/properties-order" 0); [reflexivity|discriminate|cbn; lia].
Defined.

(* ===================================================================== *)
(** ** Request validation *)
(* ===================================================================== *)

Lemma trim_end_empty (s : string) :
  trim_end s = EmptyString <-> all_whitespace s = true.
Proof.
  induction s as [|c rest IH]; cbn [trim_end all_whitespace]; [done|].
  destruct (trim_end rest) as [|k kept].
  - rewrite (proj1 IH eq_refl), andb_true_r.
    destruct (is_whitespace c); split; done.
  - split; [done|]. intros [_ Hrest]%andb_true_iff.
    by apply IH in Hrest.
Qed.

Lemma all_whitespace_trim_start (s : string) :
  all_whitespace (trim_start s) = all_whitespace s.
Proof.
  induction s as [|c rest IH]; cbn [trim_start]; [done|].
  destruct (is_whitespace c) eqn:Hc; [|done].
  cbn [all_whitespace]. by rewrite Hc.
Qed.

(** Trimming leaves nothing exactly when every character is a blank. *)
Lemma trim_empty (s : string) : trim s = EmptyString <-> all_whitespace s = true.
Proof. unfold trim. by rewrite trim_end_empty, all_whitespace_trim_start. Qed.

(** The outcome of validation, check by check, and the state left as it
    was. *)
Lemma validateLintRequest_run (K : Constants) (request : LintRequest.t) (st : State) :
  validateLintRequest K request st =
    (if bool_decide (trim (LintRequest.code request) = EmptyString)
     then Threw (validation_failure K EmptyCode)
     else if negb (is_CssSyntax (LintRequest.syntax request))
     then Threw (validation_failure K UnsupportedSyntax)
     else if Nat.eqb (size (own_properties (st_heap st)
                        (LintRequest.rules (LintRequest.config request)))) 0
     then Threw (validation_failure K NoRules)
     else match LintRequest.outputStyle (LintRequest.config request) with
          | None => Returned tt
          | Some style =>
              if is_OutputStyle style then Returned tt
              else Threw (validation_failure K UnsupportedOutputStyle)
          end,
     st).
Proof.
  unfold validateLintRequest, validateCode, validateSyntax, validateRules,
    validateOutputStyle, validation_error, validation_failure, throw, read_heap.
  unfold mbind, M_bind, mret, M_ret.
  case_bool_decide; [done|].
  destruct (is_CssSyntax _); [|done]. cbn [negb].
  destruct (Nat.eqb _ 0); [done|].
  destruct (LintRequest.outputStyle _) as [style|]; [|done].
  by destruct (is_OutputStyle style).
Qed.

Lemma validateLintRequest_pure K request st r st' :
  validateLintRequest K request st = (r, st') -> st' = st.
Proof. rewrite validateLintRequest_run. by intros [= _ <-]. Qed.

(** C3. Validation checks code, syntax, rules and output style in that
    order and stops at the first failure, each with an error of its own
    kind, leaving the state untouched: code that is empty or all blanks
    fails with EmptyCode whatever the other fields hold; otherwise a syntax
    outside css and html fails with UnsupportedSyntax; otherwise a rules
    mapping without entries fails with NoRules; otherwise an output style
    that is present and outside compact and nested fails with
    UnsupportedOutputStyle; otherwise validation returns. *)
Theorem validateLintRequest_fails_fast
    (K : Constants) (request : LintRequest.t) (st : State) :
  let code := LintRequest.code request in
  let syntax := LintRequest.syntax request in
  let rules := LintRequest.rules (LintRequest.config request) in
  let outputStyle := LintRequest.outputStyle (LintRequest.config request) in
  let entries := size (own_properties (st_heap st) rules) in
  let blank := code = EmptyString \/ all_whitespace code = true in
  let bad_syntax := syntax <> "css" /\ syntax <> "html" in
  let bad_style :=
    exists style, outputStyle = Some style /\ style <> "compact" /\ style <> "nested" in
  (blank ->
     validateLintRequest K request st = (Threw (validation_failure K EmptyCode), st)) /\
  (~ blank -> bad_syntax ->
     validateLintRequest K request st
       = (Threw (validation_failure K UnsupportedSyntax), st)) /\
  (~ blank -> ~ bad_syntax -> entries = 0 ->
     validateLintRequest K request st = (Threw (validation_failure K NoRules), st)) /\
  (~ blank -> ~ bad_syntax -> entries <> 0 -> bad_style ->
     validateLintRequest K request st
       = (Threw (validation_failure K UnsupportedOutputStyle), st)) /\
  (~ blank -> ~ bad_syntax -> entries <> 0 -> ~ bad_style ->
     validateLintRequest K request st = (Returned tt, st)) /\
  (forall k1 k2, validation_failure K k1 = validation_failure K k2 -> k1 = k2).
Proof.
  cbv zeta. rewrite validateLintRequest_run.
  set (code := LintRequest.code request).
  set (syntax := LintRequest.syntax request).
  set (outputStyle := LintRequest.outputStyle _).
  set (entries := size _).
  assert (Hblank : (code = EmptyString \/ all_whitespace code = true) <-> trim code = EmptyString).
  { rewrite trim_empty. split; [|by right]. by intros [->|?]. }
  assert (Hsyn : (syntax <> "css" /\ syntax <> "html") <-> is_CssSyntax syntax = false).
  { unfold is_CssSyntax. repeat case_bool_decide; cbn; intuition congruence. }
  assert (Hent : entries = 0 <-> Nat.eqb entries 0 = true) by (symmetry; apply Nat.eqb_eq).
  assert (Hsty : (exists style, outputStyle = Some style /\
                     style <> "compact" /\ style <> "nested")
                 <-> exists style, outputStyle = Some style /\ is_OutputStyle style = false).
  { unfold is_OutputStyle. split; intros (style & ? & H); exists style; split; try done;
      revert H; repeat case_bool_decide; cbn; intuition congruence. }
  rewrite Hblank, Hsyn, Hent, Hsty. clear Hblank Hsyn Hent Hsty.
  repeat match goal with |- _ /\ _ => split end.
  - intros H. by rewrite bool_decide_eq_true_2.
  - intros H1 H2. by rewrite bool_decide_eq_false_2, H2.
  - intros H1 H2%not_false_is_true H3. by rewrite bool_decide_eq_false_2, H2, H3.
  - intros H1 H2%not_false_is_true H3%not_true_is_false (style & -> & H4).
    by rewrite bool_decide_eq_false_2, H2, H3, H4.
  - intros H1 H2%not_false_is_true H3%not_true_is_false H4.
    rewrite bool_decide_eq_false_2, H2, H3 by done. cbn.
    destruct outputStyle as [style|]; [|done].
    destruct (is_OutputStyle style) eqn:E; [done|]. destruct H4; eauto.
  - unfold validation_failure. by intros k1 k2 [= ->].
Qed.

Lemma validateLintRequest_fails_fast_witness :
  let request :=
    LintRequest.mk "   " "invalid" (LintRequest.mk_config 0 (Some "invalid")) in
  (LintRequest.code request = EmptyString \/ all_whitespace (LintRequest.code request) = true) /\
  validateLintRequest sample_constants request sample_state
    = (Threw (validation_failure sample_constants EmptyCode), sample_state).
Proof.
  cbv zeta. split; [right; reflexivity|].
  apply (proj1 (validateLintRequest_fails_fast sample_constants
                  (LintRequest.mk "   " "invalid"
                     (LintRequest.mk_config 0 (Some "invalid")))
                  sample_state)).
  right; reflexivity.
Defined.

(* ===================================================================== *)
(** ** Warning extraction *)
(* ===================================================================== *)



(** What [extractWarnings] makes of the [warnings] slot once it has it. *)
Lemma warnings_slot_cases (warnings : JsValue) :
  (if negb (js_truthy warnings) || negb (isArray warnings)
   then Returned []
   else match warnings with
        | JArray ws => Returned ws
        | _ => Returned []
        end)
  = Returned (match warnings with JArray ws => ws | _ => [] end).
Proof. destruct warnings; cbn; by rewrite ?orb_true_r. Qed.

(** The run of [extractWarnings] on a non-empty [results] array. *)
Lemma extractWarnings_array first rest code :
  extractWarnings (Some (LinterResult.mk (JArray (first :: rest)) code))
  = match js_get first "warnings" with
    | Returned warnings =>
        Returned (match warnings with JArray ws => ws | _ => [] end)
    | Threw error => Threw error
    end.
Proof.
  unfold extractWarnings. cbn.
  destruct (js_get first "warnings") as [warnings|error]; [|done]. cbn.
  apply warnings_slot_cases.
Qed.




(** C10. Only the first element of [results] is read: with two or more
    elements the answer is the one the first element alone would give, so
    the warnings of the second and later elements are dropped. *)
Theorem extractWarnings_first_only
    (first second : JsValue) (rest : list JsValue) (code : option string) :
  extractWarnings (Some (LinterResult.mk (JArray (first :: second :: rest)) code))
  = extractWarnings (Some (LinterResult.mk (JArray [first]) code))
  /\ extractWarnings (Some (LinterResult.mk (JArray (first :: second :: rest)) code))
     = match js_get first "warnings" with
       | Returned (JArray ws) => Returned ws
       | Returned _ => Returned []
       | Threw error => Threw error
       end.
Proof.
  rewrite !extractWarnings_array. split; [reflexivity|].
  by destruct (js_get first "warnings") as [[]|].
Qed.

(* ===================================================================== *)
(** ** Output formatting and the orchestrator *)
(* ===================================================================== *)

Section service_properties.
Context (K : Constants).
Context (styleLint_lint : LintOptions.t -> M EngineAnswer).
Context {Root : Type}.
Context (postcss_parse : string -> Outcome Root).
Context (nestedFormatter compactFormatter : Root -> Outcome string).

Local Abbreviation format :=
  (formatOutput K postcss_parse nestedFormatter compactFormatter).
Local Abbreviation print_style :=
  (reserialize postcss_parse nestedFormatter compactFormatter).
Local Abbreviation lint :=
  (lintCode K styleLint_lint postcss_parse nestedFormatter compactFormatter).

(** What [formatOutput] does, case by case. *)
Lemma formatOutput_run lintedCode outputStyle syntax st :
  format lintedCode outputStyle syntax st =
    if bool_decide (syntax = "html") || negb (truthy_string outputStyle)
    then (Returned lintedCode, st)
    else match print_style outputStyle lintedCode with
         | Returned formatted => (Returned formatted, st)
         | Threw inner =>
             (Threw (ErrorObject ParseError
                       (PARSE_ERROR K +:+ ": " +:+ thrown_text inner)),
              parse_failed st)
         end.
Proof.
  unfold formatOutput, reserialize.
  destruct (_ || _); [done|].
  unfold try_catch, lift, mbind, M_bind, logger, throw, parse_failed.
  destruct (postcss_parse lintedCode) as [root|inner]; [|done].
  case_bool_decide.
  - by destruct (nestedFormatter root).
  - by destruct (compactFormatter root).
Qed.

(** [formatOutput] throws nothing but a [ParseError]. *)
Lemma formatOutput_throws_ParseError lintedCode outputStyle syntax st error st' :
  format lintedCode outputStyle syntax st = (Threw error, st') ->
  instanceof_ParseError error = true.
Proof.
  rewrite formatOutput_run. destruct (_ || _); [done|].
  destruct (reserialize _ _ _ _ _); [done|]. by intros [= <- _].
Qed.

(** C5. For every fixed code, [formatOutput] returns it unchanged, and
    leaves the state as it was, when the syntax is html or the output
    style is absent, whatever the other arguments are: with syntax html
    no output style causes reformatting. *)
Theorem formatOutput_identity
    (lintedCode : string) (outputStyle : option string) (syntax : string)
    (st : State) :
  syntax = "html" \/ outputStyle = None ->
  format lintedCode outputStyle syntax st = (Returned lintedCode, st).
Proof.
  intros H. rewrite formatOutput_run.
  destruct H as [-> | ->]; [done|].
  by rewrite orb_true_r.
Qed.

(** [extractWarnings] throws nothing but the [TypeError] of a property
    read. *)
Lemma extractWarnings_throws_TypeError lintResult error :
  extractWarnings lintResult = Threw error ->
  exists message, error = ErrorObject OtherError message.
Proof.
  unfold extractWarnings. destruct lintResult as [[results code]|]; cbn.
  2: { intros [= <-]. unfold type_error. eauto. }
  destruct (js_truthy results) eqn:Htruthy; cbn; [|done].
  assert (Hlen : exists len, js_get results "length" = Returned len)
    by (destruct results; cbn in *; eauto; discriminate).
  destruct Hlen as [len ->]. cbn. destruct (is_zero len); [done|].
  assert (Hfirst : exists first, js_first results = Returned first)
    by (destruct results as [| | | |[]| |]; cbn in *; eauto; discriminate).
  destruct Hfirst as [first ->]. cbn.
  destruct (js_get first "warnings") as [warnings|thrown] eqn:Hw; cbn.
  - rewrite warnings_slot_cases. done.
  - intros [= <-]. destruct first; cbn in Hw; try discriminate;
      injection Hw as <-; unfold type_error; eauto.
Qed.

(** What [lintCode] does once validation has passed, by the outcome of
    the engine, then of the extraction, then of the formatter. *)
Lemma lintCode_run request st options st1 :
  validateLintRequest K request st = (Returned tt, st) ->
  engine_call request st = (options, st1) ->
  lint request st =
    match styleLint_lint options st1 with
    | (Threw error, st2) => lintCode_catch K error st2
    | (Returned lintResult, st2) =>
        match extractWarnings lintResult with
        | Threw error => lintCode_catch K error st2
        | Returned warnings =>
            match format (default (LintRequest.code request)
                                  (lintResult ≫= LinterResult.code))
                         (LintRequest.outputStyle (LintRequest.config request))
                         (LintRequest.syntax request) st2 with
            | (Threw error, st3) => (Threw error, st3)
            | (Returned formatted, st3) =>
                let stylelintConfig := LintOptions.config options in
                let h := st_heap st3 in
                (Returned
                   (LintResult.mk true (SUCCESS K)
                      (Some
                         (LintResult.mk_content warnings formatted
                            (LintResult.mk_info (STYLELINT_VERSION K)
                               (LintResult.mk_config
                                  (get_property h stylelintConfig "extends")
                                  (get_property h stylelintConfig "plugins")
                                  (get_property h stylelintConfig "customSyntax")))))),
                 lint_completed st3)
            end
        end
    end.
Proof.
  intros Hval Hcall. unfold lintCode, engine_call in *.
  unfold mbind at 1. unfold M_bind at 1. rewrite Hval.
  unfold mbind at 1. unfold M_bind at 1. unfold with_heap.
  destruct (createStylelintConfig _ _ _) as [stylelintConfig h1].
  injection Hcall as <- <-.
  unfold try_catch. unfold mbind at 1. unfold M_bind at 1.
  unfold logger at 1. cbn [st_heap st_log].
  unfold mbind at 1. unfold M_bind at 1.
  destruct (styleLint_lint _ _) as [[lintResult|error] st2].
  - unfold mbind at 1. unfold M_bind at 1. unfold lift at 1.
    destruct (extractWarnings lintResult) as [warnings|error] eqn:Hextract.
    + destruct lintResult as [result|]; [|discriminate Hextract].
      unfold mbind at 1. unfold M_bind at 1. unfold lift at 1.
      cbn [result_code mbind option_bind].
      unfold mbind at 1. unfold M_bind at 1.
      destruct (formatOutput _ _ _ _ _ _ _ _) as [[formatted|error] st3] eqn:Hfmt.
      * reflexivity.
      * apply formatOutput_throws_ParseError in Hfmt.
        rewrite Hfmt, orb_true_r. reflexivity.
    + unfold lintCode_catch. destruct (_ || _); reflexivity.
  - unfold lintCode_catch. destruct (_ || _); reflexivity.
Qed.

(** A failure of validation is the failure of [lintCode]. *)
Lemma lintCode_validation_failure request st error st' :
  validateLintRequest K request st = (Threw error, st') ->
  lint request st = (Threw error, st').
Proof.
  intros Hval. unfold lintCode. unfold mbind at 1. unfold M_bind at 1.
  by rewrite Hval.
Qed.

(** C4, amended.  A validation error leaves [lintCode] as it was thrown.
    When validation has passed and the engine throws: a [LintError] or
    [ParseError] instance is thrown on unchanged; any other [Error]
    instance is replaced by a [LintError] whose message is the fixed
    prefix [LINT_ERROR], a colon and a space, then the original message;
    a thrown value that is not an [Error] is replaced by a [LintError]
    with the fixed text [UNKNOWN_ERROR].  When the engine returns and
    the formatter, once reached, throws, that error is thrown on
    unchanged; the [TypeError] of a failed warning extraction is wrapped
    like any other [Error] of the engine phase. *)
Theorem lintCode_error_propagation (request : LintRequest.t) (st : State) :
  (forall error st',
     validateLintRequest K request st = (Threw error, st') ->
     lint request st = (Threw error, st')) /\
  (forall options st1 error st2,
     validateLintRequest K request st = (Returned tt, st) ->
     engine_call request st = (options, st1) ->
     styleLint_lint options st1 = (Threw error, st2) ->
     (instanceof_LintError error || instanceof_ParseError error = true ->
      lint request st = (Threw error, st2)) /\
     (forall cls message,
        error = ErrorObject cls message ->
        instanceof_LintError error || instanceof_ParseError error = false ->
        lint request st
        = (Threw (ErrorObject LintError (LINT_ERROR K +:+ ": " +:+ message)),
           lint_failed st2)) /\
     (forall rendering,
        error = NonError rendering ->
        lint request st
        = (Threw (ErrorObject LintError (UNKNOWN_ERROR K)), lint_failed st2))) /\
  (forall options st1 lintResult st2 warnings error st3,
     validateLintRequest K request st = (Returned tt, st) ->
     engine_call request st = (options, st1) ->
     styleLint_lint options st1 = (Returned lintResult, st2) ->
     extractWarnings lintResult = Returned warnings ->
     format (default (LintRequest.code request) (lintResult ≫= LinterResult.code))
            (LintRequest.outputStyle (LintRequest.config request))
            (LintRequest.syntax request) st2 = (Threw error, st3) ->
     lint request st = (Threw error, st3)) /\
  (forall options st1 lintResult st2 error,
     validateLintRequest K request st = (Returned tt, st) ->
     engine_call request st = (options, st1) ->
     styleLint_lint options st1 = (Returned lintResult, st2) ->
     extractWarnings lintResult = Threw error ->
     lint request st
     = (Threw (ErrorObject LintError (LINT_ERROR K +:+ ": " +:+ thrown_text error)),
        lint_failed st2)).
Proof.
  split; [|split; [|split]].
  - apply lintCode_validation_failure.
  - intros options st1 error st2 Hval Hcall Hengine.
    rewrite (lintCode_run _ _ _ _ Hval Hcall), Hengine. unfold lintCode_catch.
    split; [|split].
    + by intros ->.
    + by intros cls message -> ->.
    + by intros rendering ->.
  - intros options st1 lintResult st2 warnings error st3 Hval Hcall Hengine Hex Hfmt.
    by rewrite (lintCode_run _ _ _ _ Hval Hcall), Hengine, Hex, Hfmt.
  - intros options st1 lintResult st2 error Hval Hcall Hengine Hex.
    rewrite (lintCode_run _ _ _ _ Hval Hcall), Hengine, Hex.
    by destruct (extractWarnings_throws_TypeError _ _ Hex) as [message ->].
Qed.

End service_properties.

Lemma formatOutput_identity_witness :
  ("html" = "html" \/ Some "nested" = @None string) /\
  formatOutput sample_constants toy_parse toy_formatter toy_formatter
    "<style> body { color: red; } </style>" (Some "nested") "html" sample_state
  = (Returned "<style> body { color: red; } </style>", sample_state).
Proof.
  split; [by left|].
  apply formatOutput_identity. by left.
Defined.

Lemma lintCode_error_propagation_witness :
  validateLintRequest sample_constants sample_request sample_state
    = (Returned tt, sample_state) /\
  lintCode sample_constants (throwing_engine (ErrorObject OtherError "crash"))
    toy_parse toy_formatter toy_formatter sample_request sample_state
  = (Threw (ErrorObject LintError "lint error: crash"),
     lint_failed (engine_call sample_request sample_state).2).
Proof.
  split; [reflexivity|].
  exact (proj1 (proj2
    (proj1 (proj2
       (lintCode_error_propagation sample_constants
          (throwing_engine (ErrorObject OtherError "crash"))
          toy_parse toy_formatter toy_formatter sample_request sample_state))
       (engine_call sample_request sample_state).1
       (engine_call sample_request sample_state).2
       (ErrorObject OtherError "crash")
       (engine_call sample_request sample_state).2
       eq_refl eq_refl eq_refl))
    OtherError "crash" eq_refl eq_refl).
Defined.

Lemma append_inj_l (p a b : string) : p +:+ a = p +:+ b -> a = b.
Proof. induction p as [|c p IH]; cbn; [done|]. intros [= H]. auto. Qed.

(** C4, as stated, fails: when the engine throws a value that is not an
    [Error], the [LintError] raised in its place has the same fixed text
    whatever was thrown, so no fixed prefix followed by the original
    message describes it. *)
Lemma lintCode_non_Error_message_lost :
  let run error :=
    (lintCode sample_constants (throwing_engine error)
       toy_parse toy_formatter toy_formatter sample_request sample_state).1 in
  instanceof_LintError (NonError "boom") || instanceof_ParseError (NonError "boom")
    = false /\
  run (NonError "boom") = Threw (ErrorObject LintError "unknown error") /\
  run (NonError "bang") = Threw (ErrorObject LintError "unknown error") /\
  ~ (exists prefix, forall error,
        instanceof_LintError error || instanceof_ParseError error = false ->
        run error = Threw (ErrorObject LintError (prefix +:+ thrown_text error))).
Proof.
  cbv zeta. repeat split.
  intros [prefix H].
  pose proof (H (NonError "boom") eq_refl) as Hboom.
  pose proof (H (NonError "bang") eq_refl) as Hbang.
  vm_compute lintCode in Hboom, Hbang.
  assert (E : prefix +:+ "boom" = prefix +:+ "bang").
  { cbn [thrown_text] in *. congruence. }
  by apply append_inj_l in E.
Qed.



(** The two ways out, run on the stand-ins: a request whose fixed code
    parses succeeds, one whose fixed code is [}] fails with a
    [ParseError] that carries the parser's message. *)
Example lintCode_sample_success :
  exists result st',
    lintCode sample_constants quiet_engine toy_parse toy_formatter toy_formatter
      sample_request sample_state = (Returned result, st') /\
    LintResult.success result = true /\
    (LintResult.output <$> LintResult.content result) = Some "a{}".
Proof. eexists _, _. vm_compute. repeat split. Qed.

Example lintCode_sample_parse_error :
  (lintCode sample_constants quiet_engine toy_parse toy_formatter toy_formatter
     (LintRequest.mk "}" "css" (LintRequest.mk_config 0 (Some "nested")))
     sample_state).1
  = Threw (ErrorObject ParseError "parse error: Unexpected }").
Proof. vm_compute. reflexivity. Qed.

(* ===================================================================== *)
(** ** More on config synthesis *)
(* ===================================================================== *)

Lemma remapped_no_legacy (f : gmap string value) :
  remapped f !! "color-hex-case" = None.
Proof.
  unfold remapped. destruct (f !! "color-hex-case") eqn:E; [|done].
  apply lookup_delete_eq.
Qed.

Lemma remapped_idemp (f : gmap string value) : remapped (remapped f) = remapped f.
Proof. unfold remapped at 1. by rewrite remapped_no_legacy. Qed.

(** X1. [config.extends] and [config.plugins] are arrays made by the call
    itself, distinct from each other and from every object that existed
    before; they hold the three preset names and the two plugin names, in
    the fixed order, whatever the store, the rules and the syntax are. *)
Theorem createStylelintConfig_default_lists
    (h : heap) (rules : loc) (syntax : string) :
  exists e p : loc,
    get_property (createStylelintConfig rules syntax h).2
                 (createStylelintConfig rules syntax h).1 "extends" = Some (VRef e) /\
    get_property (createStylelintConfig rules syntax h).2
                 (createStylelintConfig rules syntax h).1 "plugins" = Some (VRef p) /\
    (createStylelintConfig rules syntax h).2 !! e
      = Some (OArray [ VStr "stylelint-config-standard";
                       VStr "stylelint-config-recommended-scss";
                       VStr "stylelint-config-recommended-vue" ]) /\
    (createStylelintConfig rules syntax h).2 !! p
      = Some (OArray [ VStr "stylelint-order"; VStr "@stylistic/stylelint-plugin" ]) /\
    length h <= e /\ length h <= p /\ e <> p.
Proof.
  exists (length h + 1), (length h + 2).
  rewrite !createStylelintConfig_property.
  rewrite createStylelintConfig_shape. cbn [fst snd].
  rewrite !lookup_appended.
  repeat split; try lia; try reflexivity.
  all: unfold config_fields; by repeat case_bool_decide.
Qed.

(** X2. The returned config has the keys [extends], [fix], [plugins] and
    [rules], the key [customSyntax] as well exactly when the syntax is html
    or is the name of a member that objects inherit (such as
    ['constructor']), and no other key.  For the two syntax values of the
    type, [customSyntax] is there exactly for html. *)
Theorem createStylelintConfig_keys (h : heap) (rules : loc) (syntax : string) :
  exists fields : gmap string value,
    (createStylelintConfig rules syntax h).2 !! (createStylelintConfig rules syntax h).1
      = Some (ORecord fields) /\
    dom fields
      = {[ "extends"; "fix"; "plugins"; "rules" ]}
        ∪ (if bool_decide (syntax = "html")
              || bool_decide (syntax ∈ OBJECT_PROTOTYPE_KEYS)
           then {[ "customSyntax" ]} else ∅) /\
    (is_CssSyntax syntax = true ->
     dom fields
       = {[ "extends"; "fix"; "plugins"; "rules" ]}
         ∪ (if bool_decide (syntax = "html") then {[ "customSyntax" ]} else ∅)).
Proof.
  exists (config_fields (length h) syntax).
  assert (Hdom : dom (config_fields (length h) syntax)
                 = {[ "extends"; "fix"; "plugins"; "rules" ]}
                   ∪ (if bool_decide (syntax = "html")
                         || bool_decide (syntax ∈ OBJECT_PROTOTYPE_KEYS)
                      then {[ "customSyntax" ]} else ∅)).
  { unfold config_fields. repeat case_bool_decide; cbn [orb];
      rewrite !dom_insert_L, dom_singleton_L; set_solver. }
  split; [|split].
  - rewrite createStylelintConfig_shape. cbn [fst snd]. by rewrite lookup_appended.
  - exact Hdom.
  - intros Hsyntax. rewrite Hdom. f_equal.
    replace (bool_decide (syntax ∈ OBJECT_PROTOTYPE_KEYS)) with false;
      [by rewrite orb_false_r|].
    unfold is_CssSyntax in Hsyntax. apply orb_true_iff in Hsyntax as [H|H];
      apply bool_decide_eq_true in H; subst syntax; reflexivity.
Qed.

Lemma createStylelintConfig_keys_witness :
  is_CssSyntax "css" = true /\
  exists fields : gmap string value,
    (createStylelintConfig 0 "css" legacy_heap).2
      !! (createStylelintConfig 0 "css" legacy_heap).1 = Some (ORecord fields) /\
    dom fields = {[ "extends"; "fix"; "plugins"; "rules" ]} ∪ ∅.
Proof.
  split; [reflexivity|].
  destruct (createStylelintConfig_keys legacy_heap 0 "css")
    as (fields & Hfields & _ & Hdom).
  exists fields. split; [exact Hfields | exact (Hdom eq_refl)].
Defined.

(** With an inherited name for syntax the config has five keys. *)
Example createStylelintConfig_inherited_key :
  get_property (createStylelintConfig 0 "constructor" legacy_heap).2
               (createStylelintConfig 0 "constructor" legacy_heap).1 "customSyntax"
  = Some (VBuiltin "constructor").
Proof. reflexivity. Qed.

(** X3. The rules of the returned config equal the caller's mapping
    exactly when that mapping has no [color-hex-case] entry. *)
Theorem createStylelintConfig_rules_equal_iff
    (h : heap) (rules : loc) (f : gmap string value) (syntax : string) :
  h !! rules = Some (ORecord f) ->
  config_rules (createStylelintConfig rules syntax h).2
               (createStylelintConfig rules syntax h).1 = Some f
  <-> f !! "color-hex-case" = None.
Proof.
  intros Hf. rewrite createStylelintConfig_rules, (own_properties_record _ _ _ Hf).
  split.
  - intros [= E]. rewrite <- E. apply remapped_no_legacy.
  - intros E. unfold remapped. by rewrite E.
Qed.

Lemma createStylelintConfig_rules_equal_iff_witness :
  legacy_heap !! 0
    = Some (ORecord {[ "color-hex-case" := VStr "lower"; "indentation" := VNum 2 ]}) /\
  config_rules (createStylelintConfig 0 "css" legacy_heap).2
               (createStylelintConfig 0 "css" legacy_heap).1
  <> Some {[ "color-hex-case" := VStr "lower"; "indentation" := VNum 2 ]}.
Proof.
  split; [reflexivity|].
  intros E.
  apply (createStylelintConfig_rules_equal_iff legacy_heap 0 _ "css" eq_refl) in E.
  discriminate E.
Defined.

(** X4. Synthesis is idempotent on the rules: building a second config
    from the rules mapping of a first one gives the same rules again. *)
Theorem createStylelintConfig_rules_idempotent
    (h h1 h2 : heap) (r1 n1 c1 c2 : loc) (s1 s2 : string) :
  createStylelintConfig r1 s1 h = (c1, h1) ->
  get_property h1 c1 "rules" = Some (VRef n1) ->
  createStylelintConfig n1 s2 h1 = (c2, h2) ->
  config_rules h2 c2 = config_rules h1 c1 /\ is_Some (config_rules h1 c1).
Proof.
  intros E1 Hn1 E2.
  pose proof (createStylelintConfig_rules h r1 s1) as R1.
  pose proof (createStylelintConfig_rules h1 n1 s2) as R2.
  pose proof (createStylelintConfig_property h r1 s1 "rules") as P1.
  rewrite E1 in R1, P1. rewrite E2 in R2. cbn [fst snd] in *.
  rewrite config_fields_rules, Hn1 in P1. injection P1 as ->.
  rewrite R1, R2. split; [|eauto]. f_equal.
  rewrite createStylelintConfig_shape in E1. injection E1 as <- <-.
  unfold own_properties at 1.
  replace (length h) with (length h + 0) at 1 by lia.
  rewrite lookup_appended. cbn. apply remapped_idemp.
Qed.

Lemma createStylelintConfig_rules_idempotent_witness :
  config_rules
    (createStylelintConfig 1 "html" (createStylelintConfig 0 "css" legacy_heap).2).2
    (createStylelintConfig 1 "html" (createStylelintConfig 0 "css" legacy_heap).2).1
  = config_rules (createStylelintConfig 0 "css" legacy_heap).2
                 (createStylelintConfig 0 "css" legacy_heap).1.
Proof.
  exact (proj1 (createStylelintConfig_rules_idempotent
                  legacy_heap _ _ 0 1 _ _ "css" "html"
                  eq_refl eq_refl eq_refl)).
Defined.

(** X5. The remap keeps the number of rules, except that it drops one when
    the caller's mapping had entries under both the old and the new name;
    a mapping with at least one rule never becomes empty. *)
Theorem createStylelintConfig_rule_count
    (h : heap) (rules : loc) (f : gmap string value) (syntax : string) :
  h !! rules = Some (ORecord f) ->
  exists g : gmap string value,
    config_rules (createStylelintConfig rules syntax h).2
                 (createStylelintConfig rules syntax h).1 = Some g /\
    size g = match f !! "color-hex-case", f !! "@stylistic/color-hex-case" with
             | Some _, Some _ => pred (size f)
             | _, _ => size f
             end /\
    (size f <> 0 -> size g <> 0).
Proof.
  intros Hf. exists (remapped f).
  rewrite createStylelintConfig_rules, (own_properties_record _ _ _ Hf).
  split; [done|]. unfold remapped.
  destruct (f !! "color-hex-case") as [v|] eqn:Hold; [|done].
  split.
  - rewrite map_size_delete, lookup_insert_ne, Hold by done.
    rewrite map_size_insert.
    destruct (f !! "@stylistic/color-hex-case"); [done|]. by cbn.
  - intros _. apply (map_size_ne_0_lookup_2 _ "@stylistic/color-hex-case").
    rewrite lookup_delete_ne by done. rewrite lookup_insert_eq. eauto.
Qed.

Lemma createStylelintConfig_rule_count_witness :
  legacy_heap !! 0
    = Some (ORecord {[ "color-hex-case" := VStr "lower"; "indentation" := VNum 2 ]}) /\
  exists g : gmap string value,
    config_rules (createStylelintConfig 0 "css" legacy_heap).2
                 (createStylelintConfig 0 "css" legacy_heap).1 = Some g /\
    size g = 2.
Proof.
  split; [reflexivity|].
  destruct (createStylelintConfig_rule_count legacy_heap 0 _ "css" eq_refl)
    as (g & Hg & Hsize & _).
  exists g. split; [exact Hg | exact Hsize].
Defined.






(* ===================================================================== *)
(** ** More on formatting and the orchestrator *)
(* ===================================================================== *)

Lemma validateLintRequest_syntax K request st st' :
  validateLintRequest K request st = (Returned tt, st') ->
  is_CssSyntax (LintRequest.syntax request) = true.
Proof.
  rewrite validateLintRequest_run. case_bool_decide; [done|].
  by destruct (is_CssSyntax _).
Qed.

Section service_more.
Context (K : Constants).
Context (styleLint_lint : LintOptions.t -> M EngineAnswer).
Context {Root : Type}.
Context (postcss_parse : string -> Outcome Root).
Context (nestedFormatter compactFormatter : Root -> Outcome string).

Local Abbreviation format :=
  (formatOutput K postcss_parse nestedFormatter compactFormatter).
Local Abbreviation lint :=
  (lintCode K styleLint_lint postcss_parse nestedFormatter compactFormatter).

(** X7. [formatOutput] never touches the object store.  When it returns
    it leaves the log as it was; when it throws, the value thrown is a
    [ParseError] and exactly one error line has been logged. *)
Theorem formatOutput_effects
    (lintedCode : string) (outputStyle : option string) (syntax : string)
    (st st' : State) (r : Outcome string) :
  format lintedCode outputStyle syntax st = (r, st') ->
  st_heap st' = st_heap st /\
  match r with
  | Returned _ => st_log st' = st_log st
  | Threw error =>
      instanceof_ParseError error = true /\
      st_log st' = st_log st ++ [(LogError, "CSS parsing failed")]
  end.
Proof.
  rewrite formatOutput_run. destruct (_ || _); [by intros [= <- <-]|].
  destruct (reserialize _ _ _ _ _); by intros [= <- <-].
Qed.

(** X8. For a syntax other than html and a non-empty output style, the
    parsed code is printed by [nestedFormatter] when the style is
    ['nested'] and by [compactFormatter] for every other style; what the
    chosen formatter returns is the output, and what it throws is raised
    as a [ParseError] that carries its message. *)
Theorem formatOutput_selects_formatter
    (lintedCode style syntax : string) (st : State) (root : Root) :
  syntax <> "html" -> style <> EmptyString ->
  postcss_parse lintedCode = Returned root ->
  let deliver (printed : Outcome string) : Outcome string * State :=
    match printed with
    | Returned formatted => (Returned formatted, st)
    | Threw inner =>
        (Threw (ErrorObject ParseError
                  (PARSE_ERROR K +:+ ": " +:+ thrown_text inner)),
         parse_failed st)
    end in
  (style = "nested" ->
   format lintedCode (Some style) syntax st = deliver (nestedFormatter root)) /\
  (style <> "nested" ->
   format lintedCode (Some style) syntax st = deliver (compactFormatter root)).
Proof.
  intros Hsyntax Hstyle Hparse. cbv zeta.
  rewrite formatOutput_run. unfold reserialize. rewrite Hparse.
  rewrite (bool_decide_eq_false_2 _ Hsyntax).
  replace (truthy_string (Some style)) with true by (by destruct style).
  cbn [orb negb]. split.
  - intros ->. by rewrite bool_decide_eq_true_2.
  - intros Hnested. by rewrite bool_decide_eq_false_2 by congruence.
Qed.

(** X9. [lintCode] returns only for a request that passes validation and
    an engine run that returned; what it returns has [success = true], the
    success message, and a content that is not null, carrying the
    warnings of the engine's first result and the version constant. *)
Theorem lintCode_returns_success
    (request : LintRequest.t) (st st' : State) (result : LintResult.t) :
  lint request st = (Returned result, st') ->
  validateLintRequest K request st = (Returned tt, st) /\
  LintResult.success result = true /\
  LintResult.message result = SUCCESS K /\
  exists lintResult st2 content,
    styleLint_lint (engine_call request st).1 (engine_call request st).2
      = (Returned lintResult, st2) /\
    LintResult.content result = Some content /\
    extractWarnings lintResult = Returned (LintResult.warnings content) /\
    LintResult.version (LintResult.info content) = STYLELINT_VERSION K.
Proof.
  intros Hrun.
  destruct (validateLintRequest K request st) as [[[]|error] sv] eqn:Hval.
  2: { by rewrite (lintCode_validation_failure _ _ _ _ _ _ _ _ _ Hval) in Hrun. }
  pose proof (validateLintRequest_pure _ _ _ _ _ Hval) as ->.
  destruct (engine_call request st) as [options st1] eqn:Hcall.
  rewrite (lintCode_run _ _ _ _ _ _ _ _ _ Hval Hcall) in Hrun. cbn [fst snd].
  destruct (styleLint_lint options st1) as [[lintResult|error] st2].
  - destruct (extractWarnings lintResult) as [warnings|error] eqn:Hex.
    + destruct (formatOutput _ _ _ _ _ _ _ _) as [[formatted|error] st3];
        [|discriminate].
      injection Hrun as <- <-. repeat split. eauto 10.
    + unfold lintCode_catch in Hrun. by destruct (_ || _).
  - unfold lintCode_catch in Hrun. by destruct (_ || _).
Qed.

(** X10. Once validation has passed, every value [lintCode] throws is an
    instance of [LintError] or of [ParseError]: a foreign error or a thrown
    non-error never leaves it. *)
Theorem lintCode_throws_typed
    (request : LintRequest.t) (st st' : State) (error : Thrown) :
  validateLintRequest K request st = (Returned tt, st) ->
  lint request st = (Threw error, st') ->
  instanceof_LintError error || instanceof_ParseError error = true.
Proof.
  intros Hval Hrun.
  destruct (engine_call request st) as [options st1] eqn:Hcall.
  rewrite (lintCode_run _ _ _ _ _ _ _ _ _ Hval Hcall) in Hrun.
  assert (Hcatch : forall thrown s,
            @lintCode_catch K LintResult.t thrown s = (Threw error, st') ->
            instanceof_LintError error || instanceof_ParseError error = true).
  { intros thrown s. unfold lintCode_catch.
    destruct (_ || _) eqn:Htyped; by intros [= <- <-]. }
  destruct (styleLint_lint options st1) as [[lintResult|thrown] st2]; [|eauto].
  destruct (extractWarnings lintResult) as [warnings|thrown]; [|eauto].
  destruct (formatOutput _ _ _ _ _ _ _ _) as [[formatted|thrown] st3] eqn:Hfmt;
    [discriminate|].
  injection Hrun as <- <-.
  apply formatOutput_throws_ParseError in Hfmt. by rewrite Hfmt, orb_true_r.
Qed.

(** X11. With syntax html, or without an output style, once the engine
    has returned a result from which the warnings are extracted, the run
    succeeds and its output is the code the engine gave back, or the
    request's own code when the engine gave none, character for
    character. *)
Theorem lintCode_verbatim_output
    (request : LintRequest.t) (st : State)
    (lintResult : EngineAnswer) (st2 : State) (warnings : list JsValue) :
  validateLintRequest K request st = (Returned tt, st) ->
  styleLint_lint (engine_call request st).1 (engine_call request st).2
    = (Returned lintResult, st2) ->
  extractWarnings lintResult = Returned warnings ->
  LintRequest.syntax request = "html"
  \/ LintRequest.outputStyle (LintRequest.config request) = None ->
  exists result,
    lint request st = (Returned result, lint_completed st2) /\
    LintResult.output <$> LintResult.content result
    = Some (match lintResult ≫= LinterResult.code with
            | Some fixed => fixed
            | None => LintRequest.code request
            end).
Proof.
  intros Hval Hengine Hex Hplain.
  destruct (engine_call request st) as [options st1] eqn:Hcall. cbn [fst snd] in *.
  rewrite (lintCode_run _ _ _ _ _ _ _ _ _ Hval Hcall), Hengine, Hex.
  rewrite formatOutput_run.
  replace (bool_decide (LintRequest.syntax request = "html")
           || negb (truthy_string
                      (LintRequest.outputStyle (LintRequest.config request))))
    with true.
  2: { destruct Hplain as [-> | ->]; [done|]. by rewrite orb_true_r. }
  eexists. split; [reflexivity|]. cbn.
  by destruct (lintResult ≫= LinterResult.code).
Qed.

(** X12. Once validation has passed, [lintCode] calls the engine, in a
    state and with options that the engine can tell: the options carry
    the request's code and a config made for this call, with [fix] on and
    the remapped copy of the request's rules; the store has only grown and
    the log has the debug line.  Whatever engine is plugged in, a typed
    error it throws at that call is what [lintCode] throws, and two
    engines that agree at that call give the same run. *)
Theorem lintCode_engine_input (request : LintRequest.t) (st : State) :
  validateLintRequest K request st = (Returned tt, st) ->
  exists (options : LintOptions.t) (st1 : State),
    LintOptions.code options = LintRequest.code request /\
    get_property (st_heap st1) (LintOptions.config options) "fix"
      = Some (VBool true) /\
    config_rules (st_heap st1) (LintOptions.config options)
      = Some (remapped (own_properties (st_heap st)
                          (LintRequest.rules (LintRequest.config request)))) /\
    (exists new, st_heap st1 = st_heap st ++ new) /\
    st_log st1 = st_log st ++ [(LogDebug, "Running Stylelint")] /\
    (forall (engine : LintOptions.t -> M EngineAnswer) error st2,
       engine options st1 = (Threw error, st2) ->
       instanceof_LintError error || instanceof_ParseError error = true ->
       lintCode K engine postcss_parse nestedFormatter compactFormatter request st
       = (Threw error, st2)) /\
    (forall engine engine' : LintOptions.t -> M EngineAnswer,
       engine options st1 = engine' options st1 ->
       lintCode K engine postcss_parse nestedFormatter compactFormatter request st
       = lintCode K engine' postcss_parse nestedFormatter compactFormatter request st).
Proof.
  intros Hval.
  destruct (engine_call request st) as [options st1] eqn:Hcall.
  exists options, st1.
  repeat match goal with |- _ /\ _ => split end.
  6: { intros engine error st2 Hengine Htyped.
       rewrite (lintCode_run _ engine _ _ _ _ _ _ _ Hval Hcall), Hengine.
       unfold lintCode_catch. by rewrite Htyped. }
  6: { intros engine engine' Hsame.
       rewrite (lintCode_run _ engine _ _ _ _ _ _ _ Hval Hcall).
       rewrite (lintCode_run _ engine' _ _ _ _ _ _ _ Hval Hcall).
       by rewrite Hsame. }
  all: unfold engine_call in Hcall.
  all: pose proof (createStylelintConfig_property (st_heap st)
         (LintRequest.rules (LintRequest.config request))
         (LintRequest.syntax request) "fix") as Hfix.
  all: pose proof (createStylelintConfig_rules (st_heap st)
         (LintRequest.rules (LintRequest.config request))
         (LintRequest.syntax request)) as Hrules.
  all: pose proof (createStylelintConfig_shape (st_heap st)
         (LintRequest.rules (LintRequest.config request))
         (LintRequest.syntax request)) as Hshape.
  all: destruct (createStylelintConfig _ _ _) as [stylelintConfig h1].
  all: injection Hcall as <- <-; cbn [fst snd st_heap st_log LintOptions.code
                                      LintOptions.config] in *.
  - reflexivity.
  - by rewrite Hfix, config_fields_fix.
  - exact Hrules.
  - injection Hshape as _ ->. eauto.
  - reflexivity.
Qed.

Lemma get_property_grown (h new : heap) (l : loc) (key : string) :
  l < length h -> get_property (h ++ new) l key = get_property h l key.
Proof. intros Hl. unfold get_property. by rewrite lookup_app_l. Qed.

(** X13. When the engine has only added to the store, the answer reports
    the config the engine was given: [extends] and [plugins] refer to
    arrays holding the default presets and plugins, and [customSyntax] is
    ['postcss-html'] for html and absent otherwise. *)
Theorem lintCode_reports_config
    (request : LintRequest.t) (st st2 st' : State)
    (lintResult : EngineAnswer) (result : LintResult.t) :
  validateLintRequest K request st = (Returned tt, st) ->
  styleLint_lint (engine_call request st).1 (engine_call request st).2
    = (Returned lintResult, st2) ->
  (exists new, st_heap st2 = st_heap (engine_call request st).2 ++ new) ->
  lint request st = (Returned result, st') ->
  exists content e p,
    LintResult.content result = Some content /\
    LintResult.extends (LintResult.config (LintResult.info content)) = Some (VRef e) /\
    st_heap st' !! e = Some (OArray DEFAULT_EXTENDS) /\
    LintResult.plugins (LintResult.config (LintResult.info content)) = Some (VRef p) /\
    st_heap st' !! p = Some (OArray DEFAULT_PLUGINS) /\
    LintResult.customSyntax (LintResult.config (LintResult.info content))
    = if bool_decide (LintRequest.syntax request = "html")
      then Some (VStr "postcss-html") else None.
Proof.
  intros Hval Hengine (new & Hnew) Hrun.
  pose proof (validateLintRequest_syntax _ _ _ _ Hval) as Hsyntax.
  destruct (engine_call request st) as [options st1] eqn:Hcall. cbn [fst snd] in *.
  rewrite (lintCode_run _ _ _ _ _ _ _ _ _ Hval Hcall), Hengine in Hrun.
  destruct (extractWarnings lintResult) as [warnings|thrown].
  2: { unfold lintCode_catch in Hrun. by destruct (_ || _). }
  rewrite formatOutput_run in Hrun.
  unfold engine_call in Hcall.
  rewrite createStylelintConfig_shape in Hcall. injection Hcall as <- <-.
  cbn [st_heap LintOptions.config] in *.
  set (h := st_heap st) in *.
  set (made := [ORecord _; _; _; _]) in *.
  assert (Hcfg : forall key,
            get_property (st_heap st2) (length h + 3) key
            = config_fields (length h) (LintRequest.syntax request) !! key).
  { intros key. rewrite Hnew, get_property_grown
      by (rewrite length_app; cbn; lia).
    unfold get_property. by rewrite lookup_appended. }
  assert (Hext : st_heap st2 !! (length h + 1) = Some (OArray DEFAULT_EXTENDS)).
  { rewrite Hnew, lookup_app_l by (rewrite length_app; cbn; lia).
    by rewrite lookup_appended. }
  assert (Hplug : st_heap st2 !! (length h + 2) = Some (OArray DEFAULT_PLUGINS)).
  { rewrite Hnew, lookup_app_l by (rewrite length_app; cbn; lia).
    by rewrite lookup_appended. }
  assert (Hfields :
    config_fields (length h) (LintRequest.syntax request) !! "extends"
      = Some (VRef (length h + 1)) /\
    config_fields (length h) (LintRequest.syntax request) !! "plugins"
      = Some (VRef (length h + 2)) /\
    config_fields (length h) (LintRequest.syntax request) !! "customSyntax"
      = if bool_decide (LintRequest.syntax request = "html")
        then Some (VStr "postcss-html") else None).
  { unfold is_CssSyntax in Hsyntax. apply orb_true_iff in Hsyntax as [H|H];
      apply bool_decide_eq_true in H; rewrite H; done. }
  destruct Hfields as (Fe & Fp & Fc).
  destruct (_ || _).
  - injection Hrun as <- <-. cbn. rewrite !Hcfg, Fe, Fp, Fc. eauto 10.
  - destruct (reserialize _ _ _ _ _); [|discriminate].
    injection Hrun as <- <-. cbn. rewrite !Hcfg, Fe, Fp, Fc. eauto 10.
Qed.
End service_more.

Lemma formatOutput_effects_witness :
  formatOutput sample_constants toy_parse toy_formatter toy_formatter
    "}" (Some "nested") "css" sample_state
  = (Threw (ErrorObject ParseError "parse error: Unexpected }"),
     parse_failed sample_state) /\
  st_heap (parse_failed sample_state) = st_heap sample_state /\
  st_log (parse_failed sample_state)
  = st_log sample_state ++ [(LogError, "CSS parsing failed")].
Proof.
  split; [reflexivity|].
  pose proof (formatOutput_effects sample_constants toy_parse toy_formatter
                toy_formatter "}" (Some "nested") "css" sample_state
                (parse_failed sample_state)
                (Threw (ErrorObject ParseError "parse error: Unexpected }"))
                eq_refl) as (Hheap & _ & Hlog).
  split; [exact Hheap | exact Hlog].
Defined.

Lemma formatOutput_selects_formatter_witness :
  "css" <> "html" /\ "expanded" <> EmptyString /\ "expanded" <> "nested" /\
  toy_parse "a{}" = Returned "a{}" /\
  formatOutput sample_constants toy_parse toy_nested toy_compact
    "a{}" (Some "expanded") "css" sample_state
  = (Returned "compact:a{}", sample_state) /\
  formatOutput sample_constants toy_parse toy_nested toy_compact
    "a{}" (Some "nested") "css" sample_state
  = (Returned "nested:a{}", sample_state).
Proof.
  split; [discriminate|]. split; [discriminate|]. split; [discriminate|].
  split; [reflexivity|]. split.
  - apply (proj2 (formatOutput_selects_formatter sample_constants
                    toy_parse toy_nested toy_compact "a{}" "expanded" "css"
                    sample_state "a{}"
                    ltac:(discriminate) ltac:(discriminate) eq_refl)).
    discriminate.
  - apply (proj1 (formatOutput_selects_formatter sample_constants
                    toy_parse toy_nested toy_compact "a{}" "nested" "css"
                    sample_state "a{}"
                    ltac:(discriminate) ltac:(discriminate) eq_refl)).
    reflexivity.
Defined.

Lemma lintCode_returns_success_witness :
  exists result st',
    lintCode sample_constants busy_engine toy_parse toy_formatter toy_formatter
      sample_request sample_state = (Returned result, st') /\
    LintResult.success result = true /\
    LintResult.message result = "ok".
Proof.
  eexists _, _. split; [vm_compute; reflexivity|].
  pose proof (lintCode_returns_success sample_constants busy_engine
                toy_parse toy_formatter toy_formatter sample_request sample_state
                _ _ eq_refl) as (_ & Hsuccess & Hmessage & _).
  split; [exact Hsuccess | exact Hmessage].
Defined.

Lemma lintCode_throws_typed_witness :
  validateLintRequest sample_constants sample_request sample_state
    = (Returned tt, sample_state) /\
  exists error st',
    lintCode sample_constants (throwing_engine (NonError "boom"))
      toy_parse toy_formatter toy_formatter sample_request sample_state
    = (Threw error, st') /\
    instanceof_LintError error || instanceof_ParseError error = true.
Proof.
  split; [reflexivity|]. eexists _, _. split; [vm_compute; reflexivity|].
  exact (lintCode_throws_typed sample_constants (throwing_engine (NonError "boom"))
           toy_parse toy_formatter toy_formatter sample_request sample_state
           _ _ eq_refl eq_refl).
Defined.

Lemma lintCode_verbatim_output_witness :
  validateLintRequest sample_constants html_request sample_state
    = (Returned tt, sample_state) /\
  exists result st',
    lintCode sample_constants busy_engine toy_parse toy_formatter toy_formatter
      html_request sample_state = (Returned result, st') /\
    LintResult.output <$> LintResult.content result = Some "<style>a{}</style>".
Proof.
  split; [reflexivity|].
  destruct (lintCode_verbatim_output sample_constants busy_engine
              toy_parse toy_formatter toy_formatter html_request sample_state
              _ _ _ eq_refl eq_refl eq_refl (or_introl eq_refl))
    as (result & Hrun & Hout).
  exists result. eexists. split; [exact Hrun | exact Hout].
Defined.

Lemma lintCode_engine_input_witness :
  validateLintRequest sample_constants sample_request sample_state
    = (Returned tt, sample_state) /\
  (lintCode sample_constants inspecting_engine toy_parse toy_formatter toy_formatter
     sample_request sample_state).1
  = Threw (ErrorObject LintError "fix is on, rule renamed").
Proof.
  split; [reflexivity|].
  destruct (lintCode_engine_input sample_constants toy_parse toy_formatter
              toy_formatter sample_request sample_state eq_refl)
    as (options & st1 & _ & Hfix & Hrules & _ & _ & Hseen & _).
  rewrite (Hseen inspecting_engine
             (ErrorObject LintError "fix is on, rule renamed") st1);
    [reflexivity| |reflexivity].
  unfold inspecting_engine. rewrite Hfix, Hrules. reflexivity.
Defined.

Lemma lintCode_reports_config_witness :
  validateLintRequest sample_constants html_request sample_state
    = (Returned tt, sample_state) /\
  exists result st',
    lintCode sample_constants busy_engine toy_parse toy_formatter toy_formatter
      html_request sample_state = (Returned result, st') /\
    (LintResult.content result
       ≫= fun content =>
            LintResult.customSyntax (LintResult.config (LintResult.info content)))
    = Some (VStr "postcss-html").
Proof.
  split; [reflexivity|]. eexists _, _. split; [vm_compute; reflexivity|].
  destruct (lintCode_reports_config sample_constants busy_engine
              toy_parse toy_formatter toy_formatter html_request sample_state
              _ _ _ _ eq_refl eq_refl (ex_intro _ [OArray []] eq_refl) eq_refl)
    as (content & e & p & Hcontent & _ & _ & _ & _ & Hsyntax).
  exact (eq_trans
           (f_equal (fun o : option LintResult.content_t =>
                       o ≫= fun c =>
                         LintResult.customSyntax (LintResult.config (LintResult.info c)))
                    Hcontent)
           Hsyntax).
Defined.
